(** * The blog content pipeline (lib/blogs.ts), embedded in Rocq

    The module reads markdown files with frontmatter from the [blogs]
    directory, validates the frontmatter, renders the body and lists the
    posts newest first.  The embedding follows the TypeScript source
    function by function:

    - a JavaScript value as it comes out of the frontmatter parser is a
      [JsValue]; the TypeScript casts ([as string]) are erased at run time,
      so the fields of a post hold [JsValue]s;
    - [throw new Error(msg)] is the completion [Throw msg]; [console.warn]
      appends to the list of lines a computation has written, so a
      computation is a pair of a completion and the console output;
    - the Node runtime and the third-party packages (the file system,
      [path.join], [gray-matter], [Date.parse], the [unified] processor) are
      the fields of a [Runtime]: every theorem holds for all their
      behaviours;
    - [await] runs the awaited call to its end before the caller goes on,
      and the module only reads the file system, so a call sees one
      [Runtime] from start to end;
    - a string is the sequence of its bytes; the module compares and cuts
      strings at the ASCII text [.md] only. *)

From Stdlib Require Import Ascii QArith Qabs.
From stdpp Require Import gmap strings list fin_maps sorting.

Local Open Scope Z_scope.

#[local] Set Warnings "-register-all".

(** ** JavaScript values *)

(** A JavaScript number: a double is NaN, an infinity, or a finite value,
    kept as the rational it denotes. *)
Inductive JsNumber : Type :=
| NaN
| Infinity (negative : bool)
| Finite (q : Q).

(** What the frontmatter parser can produce: YAML scalars, timestamps
    ([Date] objects, given by their time value in milliseconds, [None] for
    an invalid date), sequences and mappings; [JUndefined] is what reading
    an absent property gives. *)
Inductive JsValue : Type :=
| JUndefined
| JNull
| JBool (b : bool)
| JNumber (n : JsNumber)
| JString (s : string)
| JDate (t : option Z)
| JArray (items : list JsValue)
| JObject (fields : list (string * JsValue)).

(** [Record<string, unknown>]; [data.key] is [get data key]. *)
Abbreviation Frontmatter := (gmap string JsValue).

Definition get (data : Frontmatter) (key : string) : JsValue :=
  default JUndefined (data !! key).

(** [!!v] *)
Definition ToBoolean (v : JsValue) : bool :=
  match v with
  | JUndefined | JNull => false
  | JBool b => b
  | JNumber NaN => false
  | JNumber (Infinity _) => true
  | JNumber (Finite q) => negb (Qeq_bool q 0)
  | JString s => negb (String.eqb s "")
  | JDate _ | JArray _ | JObject _ => true
  end.

(** [typeof v === "string"] *)
Definition typeof_is_string (v : JsValue) : bool :=
  match v with JString _ => true | _ => false end.

(** [v !== false] *)
Definition strict_ne_false (v : JsValue) : bool :=
  match v with JBool false => false | _ => true end.

(** The largest time value of a [Date], in milliseconds. *)
Definition max_time : Z := 8640000000000000.

(** [TimeClip(n)]: the time value of [new Date(n)] for a number [n];
    [None] stands for NaN. *)
Definition TimeClip (n : JsNumber) : option Z :=
  match n with
  | NaN | Infinity _ => None
  | Finite q =>
      let t := Z.quot (Qnum q) (Z.pos (Qden q)) in
      if Qle_bool (Qabs q) (inject_Z max_time) then Some t else None
  end.

(** ** Strings *)

Definition nl : string := String (Ascii.ascii_of_nat 10) "".

(** [s.endsWith(suffix)] *)
Fixpoint endsWith (s suffix : string) : bool :=
  String.eqb s suffix ||
  match s with
  | EmptyString => false
  | String _ s' => endsWith s' suffix
  end.

(** [s.replace(/\.md$/, "")]: without the [m] flag, [$] matches at the
    end of the string only. *)
Fixpoint replace_md_end (s : string) : string :=
  if String.eqb s ".md" then ""
  else match s with
       | EmptyString => ""
       | String c s' => String c (replace_md_end s')
       end.

(** [s.startsWith(prefix)] *)
Fixpoint startsWith (s prefix : string) {struct prefix} : bool :=
  match prefix with
  | EmptyString => true
  | String a prefix' =>
      match s with
      | EmptyString => false
      | String b s' => Ascii.eqb a b && startsWith s' prefix'
      end
  end.

(** [s.includes(part)] *)
Fixpoint includes (s part : string) : bool :=
  startsWith s part ||
  match s with
  | EmptyString => false
  | String _ s' => includes s' part
  end.

(** [items.join(sep)] on an array of strings *)
Fixpoint join (sep : string) (items : list string) : string :=
  match items with
  | [] => ""
  | [x] => x
  | x :: rest => x +:+ sep +:+ join sep rest
  end.

(** ** Computations: a completion and the console output *)

Inductive Completion (A : Type) : Type :=
| Return (a : A)
| Throw (message : string).
Arguments Return {A} a.
Arguments Throw {A} message.

Definition M (A : Type) : Type := Completion A * list string.

Definition ret {A} (a : A) : M A := (Return a, []).
Definition throw {A} (message : string) : M A := (Throw message, []).
Definition console_warn (line : string) : M unit := (Return tt, [line]).
Definition lift {A} (c : Completion A) : M A := (c, []).

Definition bind {A B} (m : M A) (f : A → M B) : M B :=
  match m with
  | (Return a, out) => let '(r, out') := f a in (r, out ++ out')
  | (Throw e, out) => (Throw e, out)
  end.

Notation "'do' x <- m ; k" := (bind m (fun x => k))
  (at level 10, x name, m at level 100, k at level 200).
Notation "'run' m ; k" := (bind m (fun _ => k))
  (at level 10, m at level 100, k at level 200).

(** [items.forEach(f)] and [for (const x of items) f(x)] *)
Fixpoint for_each {A} (f : A → M unit) (items : list A) : M unit :=
  match items with
  | [] => ret tt
  | x :: rest => run f x; for_each f rest
  end.

(** ** The runtime the module runs on *)

(** The Node file system as the module sees it during one call (it only
    reads), [path.join], [process.cwd()], and the packages the module
    imports.  [Date_parse s] is the time value of [Date.parse(s)], [None]
    for NaN; [ToString] is the conversion a template literal applies;
    [unified_process] is the processor chain of [markdownToHtml] followed
    by [toString()], and [unified_console] is what the chain writes to the
    console on the way (KaTeX warns there about the LaTeX it accepts
    without being strict). *)
Record Runtime : Type := {
  process_cwd : string;
  path_join : string → string → string;
  existsSync : string → bool;
  readdirSync : string → Completion (list string);
  readFileSync : string → Completion string;
  matter : string → Completion (Frontmatter * string);
  Date_parse : string → option Z;
  ToString : JsValue → string;
  unified_process : string → Completion string;
  unified_console : string → list string;
}.

(** ** The data model *)

Module BlogPost.
Record t : Type := {
  slug : string;
  title : JsValue;
  description : JsValue;
  date : JsValue;
  tags : JsValue;
  published : bool;
  content : string;
  contentHtml : string;
}.
End BlogPost.

Module BlogPostMeta.
Record t : Type := {
  slug : string;
  title : JsValue;
  description : JsValue;
  date : JsValue;
  tags : JsValue;
}.
End BlogPostMeta.

(** ** [Array.prototype.sort] with a comparator *)

(** [SortCompare]: a comparator result that is NaN counts as [+0]. *)
Definition SortCompare {A} (comparefn : A → A → option Z) (x y : A) : Z :=
  default 0 (comparefn x y).

(** The sort is stable (ECMAScript 2019); it is modelled by a stable
    insertion sort: an element moves behind the elements it compares
    greater than, and stays in front of those it compares equal to. *)
Fixpoint sort_insert {A} (comparefn : A → A → option Z) (x : A) (l : list A)
  : list A :=
  match l with
  | [] => [x]
  | y :: l' =>
      if 0 <? SortCompare comparefn x y
      then y :: sort_insert comparefn x l'
      else x :: y :: l'
  end.

(** [x] may stand in front of [y]. *)
Definition in_order {A} (comparefn : A → A → option Z) (x y : A) : Prop :=
  SortCompare comparefn x y ≤ 0.

Fixpoint Array_sort {A} (comparefn : A → A → option Z) (l : list A) : list A :=
  match l with
  | [] => []
  | x :: l' => sort_insert comparefn x (Array_sort comparefn l')
  end.

(** ** The module *)

Section Blogs.
Context (rt : Runtime).

(** [const blogsDirectory = path.join(process.cwd(), "blogs")] *)
Definition blogsDirectory : string := path_join rt (process_cwd rt) "blogs".

(** The time value of [new Date(v)], [None] for an invalid date: a [Date]
    is copied, a string is parsed, an array or a plain object is first
    converted to a string, anything else is converted to a number. *)
Definition new_Date (v : JsValue) : option Z :=
  match v with
  | JDate t => t
  | JString s => Date_parse rt s
  | JArray _ | JObject _ => Date_parse rt (ToString rt v)
  | JNumber n => TimeClip n
  | JBool b => Some (if b then 1 else 0)
  | JNull => Some 0
  | JUndefined => None
  end.

(** The [errors] array of [validateFrontmatter] once the required fields
    have been looked at. *)
Definition frontmatter_errors (data : Frontmatter) : list string :=
  (if negb (ToBoolean (get data "title"))
      || negb (typeof_is_string (get data "title"))
   then ["Missing or invalid 'title' field"] else [])
  ++
  (if negb (ToBoolean (get data "date"))
   then ["Missing 'date' field"]
   else match new_Date (get data "date") with
        | None =>
            ["Invalid date format: " +:+ ToString rt (get data "date")]
        | Some _ => []
        end).

(** The [warnings] array of [validateFrontmatter]. *)
Definition frontmatter_warnings (data : Frontmatter) : list string :=
  if negb (ToBoolean (get data "description"))
  then ["Missing 'description' field (recommended for SEO)"] else [].

Definition validation_message (slug : string) (errors : list string)
  : string :=
  "[blogs/" +:+ slug +:+ ".md] Validation failed:" +:+ nl +:+ "  - "
  +:+ join (nl +:+ "  - ") errors.

Definition warning_line (slug warning : string) : string :=
  "[blogs/" +:+ slug +:+ ".md] Warning: " +:+ warning.

Definition validateFrontmatter (data : Frontmatter) (slug : string)
  : M unit :=
  let errors := frontmatter_errors data in
  let warnings := frontmatter_warnings data in
  run for_each (fun warning => console_warn (warning_line slug warning))
        warnings;
  if (0 <? length errors)%nat
  then throw (validation_message slug errors)
  else ret tt.

(** The duplicate check of [getAllSlugs]: the loop over [slugs] with the
    set [seen]. *)
Fixpoint check_duplicates (seen : gset string) (slugs : list string)
  : M unit :=
  match slugs with
  | [] => ret tt
  | slug :: rest =>
      if decide (slug ∈ seen)
      then throw ("Duplicate slug detected: " +:+ slug)
      else check_duplicates ({[slug]} ∪ seen) rest
  end.

Definition slugs_of (fileNames : list string) : list string :=
  map replace_md_end
      (List.filter (fun fileName => endsWith fileName ".md") fileNames).

Definition getAllSlugs : M (list string) :=
  if negb (existsSync rt blogsDirectory)
  then run console_warn ("Blogs directory not found: " +:+ blogsDirectory);
       ret []
  else
    do fileNames <- lift (readdirSync rt blogsDirectory);
    let slugs := slugs_of fileNames in
    run check_duplicates ∅ slugs;
    ret slugs.

Definition markdownToHtml (markdown : string) : M string :=
  (unified_process rt markdown, unified_console rt markdown).

Definition make_post (slug : string) (data : Frontmatter)
    (content contentHtml : string) : BlogPost.t :=
  {| BlogPost.slug := slug;
     BlogPost.title := get data "title";
     BlogPost.description := get data "description";
     BlogPost.date := get data "date";
     BlogPost.tags := get data "tags";
     BlogPost.published := strict_ne_false (get data "published");
     BlogPost.content := content;
     BlogPost.contentHtml := contentHtml |}.

(** [const fullPath = path.join(blogsDirectory, `${slug}.md`)] *)
Definition fullPath (slug : string) : string :=
  path_join rt blogsDirectory (slug +:+ ".md").

(** [null] is [None]. *)
Definition getPostBySlug (slug : string) : M (option BlogPost.t) :=
  if negb (existsSync rt (fullPath slug)) then ret None
  else
    do fileContents <- lift (readFileSync rt (fullPath slug));
    do parsed <- lift (matter rt fileContents);
    let '(data, content) := parsed in
    run validateFrontmatter data slug;
    do contentHtml <- markdownToHtml content;
    ret (Some (make_post slug data content contentHtml)).

(** [if (post && post.published !== false) posts.push(post)] *)
Definition push_published (posts : list BlogPost.t)
    (post : option BlogPost.t) : list BlogPost.t :=
  match post with
  | Some p => if BlogPost.published p then posts ++ [p] else posts
  | None => posts
  end.

(** The loop of [getAllPosts]: [posts] is the array built so far. *)
Fixpoint collect_posts (slugs : list string) (posts : list BlogPost.t)
  : M (list BlogPost.t) :=
  match slugs with
  | [] => ret posts
  | slug :: rest =>
      do post <- getPostBySlug slug;
      collect_posts rest (push_published posts post)
  end.

(** [dateB.getTime() - dateA.getTime()], [None] when it is NaN.  The
    difference of two time values is taken in [Z]; as a double it may be
    rounded, which keeps its sign, and the sort reads the sign only. *)
Definition newest_first (a b : BlogPost.t) : option Z :=
  match new_Date (BlogPost.date a), new_Date (BlogPost.date b) with
  | Some dateA, Some dateB => Some (dateB - dateA)
  | _, _ => None
  end.

Definition getAllPosts : M (list BlogPost.t) :=
  do slugs <- getAllSlugs;
  do posts <- collect_posts slugs [];
  ret (Array_sort newest_first posts).

Definition post_meta (p : BlogPost.t) : BlogPostMeta.t :=
  {| BlogPostMeta.slug := BlogPost.slug p;
     BlogPostMeta.title := BlogPost.title p;
     BlogPostMeta.description := BlogPost.description p;
     BlogPostMeta.date := BlogPost.date p;
     BlogPostMeta.tags := BlogPost.tags p |}.

Definition getAllPostsMeta : M (list BlogPostMeta.t) :=
  do posts <- getAllPosts;
  ret (map post_meta posts).

End Blogs.

(** ** A small runtime to run the module on

    An in-memory [blogs] directory under [/app], a reader for the
    line-oriented subset of frontmatter used by the posts of the site
    ([key: value] lines between two [---] lines, values quoted strings or
    booleans), and a parser for [YYYY-MM-DD] dates.  The examples below
    evaluate the module on it. *)

Module Demo.

Fixpoint split_on (c : Ascii.ascii) (s : string) : list string :=
  match s with
  | EmptyString => [""]
  | String a s' =>
      if Ascii.eqb a c then "" :: split_on c s'
      else match split_on c s' with
           | [] => [String a ""]
           | w :: ws => String a w :: ws
           end
  end.

Definition digit (a : Ascii.ascii) : option Z :=
  let n := Z.of_nat (Ascii.nat_of_ascii a) in
  if (48 <=? n) && (n <=? 57) then Some (n - 48) else None.

Fixpoint number_from (acc : Z) (s : string) : option Z :=
  match s with
  | EmptyString => Some acc
  | String a s' =>
      match digit a with
      | Some d => number_from (10 * acc + d) s'
      | None => None
      end
  end.

Definition number (s : string) : option Z :=
  match s with EmptyString => None | _ => number_from 0 s end.

(** Days from 1970-01-01 to a day of the proleptic Gregorian calendar. *)
Definition days_from_civil (y m d : Z) : Z :=
  let y' := if m <=? 2 then y - 1 else y in
  let era := y' / 400 in
  let yoe := y' - era * 400 in
  let doy := (153 * (if 2 <? m then m - 3 else m + 9) + 2) / 5 + d - 1 in
  let doe := yoe * 365 + yoe / 4 - yoe / 100 + doy in
  era * 146097 + doe - 719468.

Definition parse_date (s : string) : option Z :=
  match split_on "-"%char s with
  | [ys; ms; ds] =>
      match number ys, number ms, number ds with
      | Some y, Some m, Some d =>
          if (String.length ys =? 4)%nat && (1 <=? m) && (m <=? 12)
             && (1 <=? d) && (d <=? 31)
          then Some (days_from_civil y m d * 86400000)
          else None
      | _, _, _ => None
      end
  | _ => None
  end.

Definition quote : Ascii.ascii := Ascii.ascii_of_nat 34.

Fixpoint unquote_end (s : string) : option string :=
  match s with
  | EmptyString => None
  | String a EmptyString =>
      if Ascii.eqb a quote then Some "" else None
  | String a s' => String a <$> unquote_end s'
  end.

Definition scalar (s : string) : JsValue :=
  if String.eqb s "true" then JBool true
  else if String.eqb s "false" then JBool false
  else if String.eqb s "" then JNull
  else match s with
       | String a s' =>
           if Ascii.eqb a quote
           then match unquote_end s' with
                | Some inner => JString inner
                | None => JString s
                end
           else JString s
       | EmptyString => JNull
       end.

Definition drop_space (s : string) : string :=
  match s with
  | String a s' => if Ascii.eqb a " "%char then s' else s
  | EmptyString => s
  end.

Definition field (line : string) : option (string * JsValue) :=
  match split_on ":"%char line with
  | key :: v :: vs => Some (key, scalar (drop_space (join ":" (v :: vs))))
  | _ => None
  end.

Fixpoint fields (lines : list string) (data : Frontmatter)
  : Completion (Frontmatter * string) :=
  match lines with
  | [] => Throw "frontmatter is not closed"
  | line :: rest =>
      if String.eqb line "---" then Return (data, join nl rest)
      else match field line with
           | Some (key, v) => fields rest (<[key := v]> data)
           | None => Throw ("bad frontmatter line: " +:+ line)
           end
  end.

Definition read_matter (text : string) : Completion (Frontmatter * string) :=
  match split_on (Ascii.ascii_of_nat 10) text with
  | first :: rest =>
      if String.eqb first "---" then fields rest ∅ else Return (∅, text)
  | [] => Return (∅, text)
  end.

Definition to_string (v : JsValue) : string :=
  match v with
  | JUndefined => "undefined"
  | JNull => "null"
  | JBool true => "true"
  | JBool false => "false"
  | JString s => s
  | JNumber NaN => "NaN"
  | JNumber (Infinity false) => "Infinity"
  | JNumber (Infinity true) => "-Infinity"
  | JNumber (Finite _) => "0"
  | JDate None => "Invalid Date"
  | JDate (Some _) => "Thu Jan 01 1970"
  | JArray _ => ""
  | JObject _ => "[object Object]"
  end.

Definition dir : string := "/app/blogs".

Definition lookup_file (files : list (string * string)) (p : string)
  : option string :=
  snd <$> List.find (fun f => String.eqb (dir +:+ "/" +:+ fst f) p) files.

(** The runtime over a [blogs] directory holding [files] (names and
    contents, in the order [readdirSync] lists them); [None] when the
    directory does not exist. *)
Definition runtime (files : option (list (string * string))) : Runtime :=
  {| process_cwd := "/app";
     path_join := fun a b => a +:+ "/" +:+ b;
     existsSync := fun p =>
       match files with
       | Some fs => String.eqb p dir || bool_decide (is_Some (lookup_file fs p))
       | None => false
       end;
     readdirSync := fun p =>
       match files with
       | Some fs =>
           if String.eqb p dir then Return (map fst fs)
           else Throw ("ENOTDIR: not a directory, scandir '" +:+ p +:+ "'")
       | None =>
           Throw ("ENOENT: no such file or directory, scandir '" +:+ p +:+ "'")
       end;
     readFileSync := fun p =>
       match files ≫= fun fs => lookup_file fs p with
       | Some text => Return text
       | None =>
           Throw ("ENOENT: no such file or directory, open '" +:+ p +:+ "'")
       end;
     matter := read_matter;
     Date_parse := parse_date;
     ToString := to_string;
     unified_process := fun markdown =>
       Return ("<p>" +:+ markdown +:+ "</p>");
     unified_console := fun markdown => [] |}.

Definition post_file (title date extra body : string) : string :=
  "---" +:+ nl
  +:+ "title: " +:+ String quote title +:+ String quote nl
  +:+ "date: " +:+ String quote date +:+ String quote nl
  +:+ extra +:+ "---" +:+ nl +:+ body.

End Demo.

(** ** Stores the module is evaluated on *)

(** Two posts, a draft and a file that is not markdown. *)
Definition store_posts : Runtime :=
  Demo.runtime (Some
    [("older.md", Demo.post_file "Older" "2025-12-31" "" "# Older");
     ("notes.txt", "not a post");
     ("newer.md",
      Demo.post_file "Newer" "2026-02-01" ("description: x" +:+ nl) "# Newer");
     ("draft.md",
      Demo.post_file "Draft" "2026-03-01" ("published: false" +:+ nl)
        "# Draft")]).

(** A listing that names [intro.md] twice. *)
Definition store_twice : Runtime :=
  Demo.runtime (Some
    [("intro.md", Demo.post_file "Intro" "2026-01-01" "" "one");
     ("intro.md", Demo.post_file "Intro" "2026-01-01" "" "one")]).

(** Names that differ by letter case or by the spelling of the
    extension. *)
Definition store_case : Runtime :=
  Demo.runtime (Some
    [("Intro.md", Demo.post_file "Intro" "2026-01-02" "" "one");
     ("intro.md", Demo.post_file "intro" "2026-01-01" "" "two");
     ("intro.MD", Demo.post_file "INTRO" "2026-01-03" "" "three")]).

(** No [blogs] directory. *)
Definition store_missing : Runtime := Demo.runtime None.

(** A file whose frontmatter has a date and [published: false] but no
    title, after a valid one; and a file whose title and date are empty
    strings. *)
Definition text_untitled : string :=
  "---" +:+ nl +:+ "date: " +:+ String Demo.quote "2026-01-05"
  +:+ String Demo.quote nl +:+ "published: false" +:+ nl
  +:+ "---" +:+ nl +:+ "body".

Definition data_untitled : Frontmatter :=
  <["published" := JBool false]> (<["date" := JString "2026-01-05"]> ∅).

Definition store_invalid : Runtime :=
  Demo.runtime (Some
    [("good.md", Demo.post_file "Good" "2026-01-04" "" "good");
     ("untitled.md", text_untitled)]).

Definition store_empty : Runtime :=
  Demo.runtime (Some [("empty.md", Demo.post_file "" "" "" "text")]).

Definition data_empty : Frontmatter :=
  <["date" := JString ""]> (<["title" := JString ""]> ∅).

(** A post whose date does not parse, a post without date, and a valid
    post without description. *)
Definition text_undated : string :=
  "---" +:+ nl +:+ "title: " +:+ String Demo.quote "Undated"
  +:+ String Demo.quote nl +:+ "---" +:+ nl +:+ "text".

Definition data_undated : Frontmatter := <["title" := JString "Undated"]> ∅.

Definition store_dates : Runtime :=
  Demo.runtime (Some
    [("someday.md", Demo.post_file "Some day" "2026-13-01" "" "text");
     ("undated.md", text_undated);
     ("plain.md", Demo.post_file "Plain" "2026-01-07" "" "text")]).

Definition data_someday : Frontmatter :=
  <["date" := JString "2026-13-01"]> (<["title" := JString "Some day"]> ∅).

Definition data_plain : Frontmatter :=
  <["date" := JString "2026-01-07"]> (<["title" := JString "Plain"]> ∅).

(** The frontmatter of the posts of [store_posts]. *)
Definition data_older : Frontmatter :=
  <["date" := JString "2025-12-31"]> (<["title" := JString "Older"]> ∅).

Definition data_newer : Frontmatter :=
  <["description" := JString "x"]>
    (<["date" := JString "2026-02-01"]> (<["title" := JString "Newer"]> ∅)).

Definition data_draft : Frontmatter :=
  <["published" := JBool false]>
    (<["date" := JString "2026-03-01"]> (<["title" := JString "Draft"]> ∅)).

Definition post_older : BlogPost.t :=
  make_post "older" data_older "# Older" "<p># Older</p>".

Definition post_newer : BlogPost.t :=
  make_post "newer" data_newer "# Newer" "<p># Newer</p>".

Definition post_draft : BlogPost.t :=
  make_post "draft" data_draft "# Draft" "<p># Draft</p>".

(** [getPostBySlug] throws the validation error of [data]; [line] is one
    of the lines of its message and names [field]. *)
Definition rejects_with (rt : Runtime) (slug : string) (data : Frontmatter)
    (line field : string) : Prop :=
  fst (getPostBySlug rt slug)
    = Throw (validation_message slug (frontmatter_errors rt data)) ∧
  line ∈ frontmatter_errors rt data ∧
  includes line field = true ∧
  includes (validation_message slug (frontmatter_errors rt data)) field
    = true.

Definition to_lower (a : Ascii.ascii) : Ascii.ascii :=
  let n := Ascii.nat_of_ascii a in
  if (65 <=? n)%nat && (n <=? 90)%nat then Ascii.ascii_of_nat (n + 32) else a.

Fixpoint toLowerCase (s : string) : string :=
  match s with
  | EmptyString => EmptyString
  | String a s' => String (to_lower a) (toLowerCase s')
  end.

(** ** The pages that use the module

    [app/page.tsx] (the home page), [app/blog/page.tsx] (the index) and
    [app/blog/[slug]/page.tsx] (one post).  What is embedded is what the
    pages compute before they build their markup. *)

(** What the pages take from the JavaScript runtime besides the module's
    own: [String.prototype.toUpperCase], and
    [toLocaleDateString("en-GB", { year: "numeric", month: "2-digit",
    day: "2-digit" })] of the [Date] with a given time value ([None] for
    an invalid date). *)
Record PageRuntime : Type := {
  toUpperCase : string → string;
  toLocaleDateString : option Z → string;
}.

(** [s.replace(/\//g, '.')] *)
Fixpoint replace_slashes (s : string) : string :=
  match s with
  | EmptyString => EmptyString
  | String c s' =>
      String (if Ascii.eqb c "/" then "."%char else c) (replace_slashes s')
  end.

(** The object [{ slug }] of a route. *)
Module PageParams.
Record t : Type := { slug : string }.
End PageParams.

(** The [Metadata] objects the post page builds; a property that is not
    set reads as [undefined]. *)
Module Metadata.
Record t : Type := {
  title : string;
  description : JsValue;
}.
End Metadata.

Section Pages.
Context (rt : Runtime) (prt : PageRuntime).

(** [formatDate], the same in the three pages; at run time its argument
    is the [date] of a post, whatever its type. *)
Definition formatDate (dateString : JsValue) : string :=
  replace_slashes (toLocaleDateString prt (new_Date rt dateString)).

Definition generateStaticParams : M (list PageParams.t) :=
  do slugs <- getAllSlugs rt;
  ret (map (fun slug => {| PageParams.slug := slug |}) slugs).

(** [post.title.toUpperCase()]: a method call on a value that is not a
    string is a [TypeError], here with the messages of V8. *)
Definition title_toUpperCase (title : JsValue) : M string :=
  match title with
  | JString t => ret (toUpperCase prt t)
  | JUndefined =>
      throw "Cannot read properties of undefined (reading 'toUpperCase')"
  | JNull => throw "Cannot read properties of null (reading 'toUpperCase')"
  | _ => throw "post.title.toUpperCase is not a function"
  end.

Definition generateMetadata (params : PageParams.t) : M Metadata.t :=
  do post <- getPostBySlug rt (PageParams.slug params);
  match post with
  | None =>
      ret {| Metadata.title := "ERR_NOT_FOUND";
             Metadata.description := JUndefined |}
  | Some p =>
      do upper <- title_toUpperCase (BlogPost.title p);
      ret {| Metadata.title := upper +:+ " | LOG";
             Metadata.description := BlogPost.description p |}
  end.

(** The date [a] gives a valid [Date] that is not before the one [b]
    gives. *)
Definition at_least_as_recent (a b : JsValue) : Prop :=
  ∃ dateA dateB,
    new_Date rt a = Some dateA ∧ new_Date rt b = Some dateB ∧ dateB ≤ dateA.

(** [const recentPosts = posts.slice(0, 5)] of the home page. *)
Definition recentPosts : M (list BlogPostMeta.t) :=
  do posts <- getAllPostsMeta rt;
  ret (take 5 posts).

End Pages.

(** ** A page runtime and more stores to evaluate on *)

Module DemoPages.

Definition to_upper (a : Ascii.ascii) : Ascii.ascii :=
  let n := Ascii.nat_of_ascii a in
  if (97 <=? n)%nat && (n <=? 122)%nat then Ascii.ascii_of_nat (n - 32) else a.

Fixpoint upper (s : string) : string :=
  match s with
  | EmptyString => EmptyString
  | String a s' => String (to_upper a) (upper s')
  end.

Definition digit_char (n : Z) : Ascii.ascii :=
  Ascii.ascii_of_nat (Z.to_nat (48 + n mod 10)).

Definition two_digits (n : Z) : string :=
  String (digit_char (n / 10)) (String (digit_char n) "").

Definition four_digits (n : Z) : string :=
  two_digits (n / 100) +:+ two_digits (n mod 100).

(** The day, month and year of a number of days since 1970-01-01. *)
Definition civil_from_days (days : Z) : Z * Z * Z :=
  let z := days + 719468 in
  let era := z / 146097 in
  let doe := z - era * 146097 in
  let yoe := (doe - doe / 1460 + doe / 36524 - doe / 146096) / 365 in
  let doy := doe - (365 * yoe + yoe / 4 - yoe / 100) in
  let mp := (5 * doy + 2) / 153 in
  let d := doy - (153 * mp + 2) / 5 + 1 in
  let m := if mp <? 10 then mp + 3 else mp - 9 in
  let y := yoe + era * 400 + (if m <=? 2 then 1 else 0) in
  (d, m, y).

(** The date in UTC, as [dd/mm/yyyy]. *)
Definition locale_date (t : option Z) : string :=
  match t with
  | None => "Invalid Date"
  | Some ms =>
      let '(d, m, y) := civil_from_days (ms / 86400000) in
      two_digits d +:+ "/" +:+ two_digits m +:+ "/" +:+ four_digits y
  end.

Definition runtime : PageRuntime :=
  {| toUpperCase := upper; toLocaleDateString := locale_date |}.

End DemoPages.

(** A file with a description and neither title nor date, and one with a
    title and a date that does not parse. *)
Definition text_bare : string :=
  "---" +:+ nl +:+ "description: " +:+ String Demo.quote "bare"
  +:+ String Demo.quote nl +:+ "---" +:+ nl +:+ "text".

Definition data_bare : Frontmatter := <["description" := JString "bare"]> ∅.

Definition text_wrong : string :=
  "---" +:+ nl +:+ "title: true" +:+ nl +:+ "date: someday" +:+ nl
  +:+ "---" +:+ nl +:+ "text".

Definition data_wrong : Frontmatter :=
  <["date" := JString "someday"]> (<["title" := JBool true]> ∅).

Definition store_bare : Runtime :=
  Demo.runtime (Some [("bare.md", text_bare)]).

(** A directory where [locked.md] cannot be read, [open.md] has a
    frontmatter that is not closed, and the processor rejects the body of
    [mystery.md]. *)
Definition files_broken : list (string * string) :=
  [("locked.md", Demo.post_file "Locked" "2026-01-08" "" "text");
   ("open.md", "---" +:+ nl +:+ "title: x");
   ("mystery.md", Demo.post_file "Mystery" "2026-01-09" "" "mystery")].

Definition store_broken : Runtime :=
  {| process_cwd := "/app";
     path_join := path_join (Demo.runtime (Some files_broken));
     existsSync := existsSync (Demo.runtime (Some files_broken));
     readdirSync := readdirSync (Demo.runtime (Some files_broken));
     readFileSync := fun p =>
       if String.eqb p "/app/blogs/locked.md"
       then Throw "EACCES: permission denied, open '/app/blogs/locked.md'"
       else readFileSync (Demo.runtime (Some files_broken)) p;
     matter := Demo.read_matter;
     Date_parse := Demo.parse_date;
     ToString := Demo.to_string;
     unified_process := fun markdown =>
       if String.eqb markdown "mystery"
       then Throw "Unknown language: `mystery` is not registered"
       else Return ("<p>" +:+ markdown +:+ "</p>");
     unified_console := fun markdown => [] |}.

Definition data_mystery : Frontmatter :=
  <["date" := JString "2026-01-09"]> (<["title" := JString "Mystery"]> ∅).

(** A directory whose [blogs] entry is a file. *)
Definition store_not_a_directory : Runtime :=
  {| process_cwd := "/app";
     path_join := fun a b => a +:+ "/" +:+ b;
     existsSync := fun p => String.eqb p "/app/blogs";
     readdirSync := fun p =>
       Throw ("ENOTDIR: not a directory, scandir '" +:+ p +:+ "'");
     readFileSync := fun p => Return "";
     matter := Demo.read_matter;
     Date_parse := Demo.parse_date;
     ToString := Demo.to_string;
     unified_process := fun markdown => Return markdown;
     unified_console := fun markdown => [] |}.

(** A processor that writes a warning for a body with a formula. *)
Definition store_math : Runtime :=
  {| process_cwd := "/app";
     path_join := path_join (Demo.runtime None);
     existsSync := existsSync (Demo.runtime (Some
       [("math.md", Demo.post_file "Math" "2026-01-11" "" "$x$")]));
     readdirSync := readdirSync (Demo.runtime (Some
       [("math.md", Demo.post_file "Math" "2026-01-11" "" "$x$")]));
     readFileSync := readFileSync (Demo.runtime (Some
       [("math.md", Demo.post_file "Math" "2026-01-11" "" "$x$")]));
     matter := Demo.read_matter;
     Date_parse := Demo.parse_date;
     ToString := Demo.to_string;
     unified_process := fun markdown =>
       Return ("<p>" +:+ markdown +:+ "</p>");
     unified_console := fun markdown =>
       if includes markdown "$"
       then ["LaTeX-incompatible input and strict mode is set to 'warn'"]
       else [] |}.

(** [path.join] on absolute POSIX paths: the segments of the two paths,
    with [.] dropped and [..] taking the segment before it away. *)
Module DemoPaths.

Fixpoint resolve (segments stack : list string) : list string :=
  match segments with
  | [] => reverse stack
  | segment :: rest =>
      if String.eqb segment "" || String.eqb segment "."
      then resolve rest stack
      else if String.eqb segment ".." then resolve rest (tail stack)
      else resolve rest (segment :: stack)
  end.

Definition join_paths (a b : string) : string :=
  "/" +:+ join "/" (resolve (Demo.split_on "/" (a +:+ "/" +:+ b)) []).

End DemoPaths.

(** A content directory with the post [in.md] and the directory
    [folder.md], and the file [outside.md] next to it. *)
Definition data_outside : Frontmatter :=
  <["date" := JString "2026-01-10"]> (<["title" := JString "Outside"]> ∅).

Definition store_traversal : Runtime :=
  {| process_cwd := "/app";
     path_join := DemoPaths.join_paths;
     existsSync := fun p =>
       bool_decide (p ∈ ["/app/blogs"; "/app/blogs/in.md";
                         "/app/blogs/folder.md"; "/app/outside.md"]);
     readdirSync := fun p =>
       if String.eqb p "/app/blogs" then Return ["in.md"; "folder.md"]
       else Throw ("ENOTDIR: not a directory, scandir '" +:+ p +:+ "'");
     readFileSync := fun p =>
       if String.eqb p "/app/blogs/in.md"
       then Return (Demo.post_file "In" "2026-01-09" "" "inside")
       else if String.eqb p "/app/outside.md"
       then Return (Demo.post_file "Outside" "2026-01-10" "" "secret")
       else Throw "EISDIR: illegal operation on a directory, read";
     matter := Demo.read_matter;
     Date_parse := Demo.parse_date;
     ToString := Demo.to_string;
     unified_process := fun markdown =>
       Return ("<p>" +:+ markdown +:+ "</p>");
     unified_console := fun markdown => [] |}.

(** Seven posts, listed oldest first. *)
Definition post_numbered (day : string) : string * string :=
  ("day" +:+ day +:+ ".md",
   Demo.post_file ("Day " +:+ day) ("2026-01-0" +:+ day) "" "text").

Definition store_seven : Runtime :=
  Demo.runtime (Some (map post_numbered ["1"; "2"; "3"; "4"; "5"; "6"; "7"])).

Definition loaded_numbered (day : string) : BlogPost.t :=
  make_post ("day" +:+ day)
    (<["date" := JString ("2026-01-0" +:+ day)]>
       (<["title" := JString ("Day " +:+ day)]> ∅))
    "text" "<p>text</p>".

Definition meta_numbered (day : string) : BlogPostMeta.t :=
  {| BlogPostMeta.slug := "day" +:+ day;
     BlogPostMeta.title := JString ("Day " +:+ day);
     BlogPostMeta.description := JUndefined;
     BlogPostMeta.date := JString ("2026-01-0" +:+ day);
     BlogPostMeta.tags := JUndefined |}.

(** * Properties *)

(** Closes a goal about an example store by evaluation. *)
Ltac evaluate :=
  first [ reflexivity
        | vm_compute; reflexivity
        | lia
        | apply (bool_decide_unpack _); vm_compute; exact I
        | let H := fresh in intros H; vm_compute in H; discriminate H ].

(** ** Computations *)

Lemma bind_Return_inv {A B} (m : M A) (f : A → M B) b out :
  bind m f = (Return b, out) →
  ∃ a out1 out2,
    m = (Return a, out1) ∧ f a = (Return b, out2) ∧ out = out1 ++ out2.
Proof.
  destruct m as [[a|e] out1]; simpl; [|discriminate].
  destruct (f a) as [r out2] eqn:Hf. intros [= -> <-]. eauto 6.
Qed.

Lemma bind_Return {A B} (m : M A) (f : A → M B) a out1 :
  m = (Return a, out1) →
  bind m f = (fst (f a), out1 ++ snd (f a)).
Proof. intros ->. simpl. by destruct (f a). Qed.

Lemma bind_Throw {A B} (m : M A) (f : A → M B) e out :
  m = (Throw e, out) → bind m f = (Throw e, out).
Proof. by intros ->. Qed.

Lemma bind_lift_Return {A B} (c : Completion A) (f : A → M B) a :
  c = Return a → bind (lift c) f = f a.
Proof. intros ->. unfold lift, bind. by destruct (f a). Qed.

(** ** Strings *)

Lemma endsWith_replace_md_end s :
  endsWith s ".md" = true → replace_md_end s +:+ ".md" = s.
Proof.
  induction s as [|c s IH]; [discriminate|].
  cbn [endsWith replace_md_end].
  destruct (String.eqb (String c s) ".md") eqn:E.
  - apply String.eqb_eq in E. by rewrite E.
  - rewrite orb_false_l. intros H. change (String c (replace_md_end s +:+ ".md") = String c s).
    f_equal. by apply IH.
Qed.

Lemma replace_md_end_inj f g :
  endsWith f ".md" = true → endsWith g ".md" = true →
  replace_md_end f = replace_md_end g → f = g.
Proof.
  intros Hf Hg E.
  rewrite <- (endsWith_replace_md_end f Hf), <- (endsWith_replace_md_end g Hg).
  by rewrite E.
Qed.

(** ** The duplicate check *)

Section Slugs.
Context (rt : Runtime).

Lemma check_duplicates_ok seen slugs :
  NoDup slugs → (∀ s, s ∈ slugs → s ∉ seen) →
  check_duplicates seen slugs = ret tt.
Proof.
  revert seen. induction slugs as [|s slugs IH]; intros seen Hnd Hseen; [done|].
  apply NoDup_cons in Hnd as [Hs Hnd]. simpl.
  destruct (decide (s ∈ seen)) as [Hin|_].
  - exfalso. apply (Hseen s); [left|done].
  - apply IH; [done|]. intros s' Hs'.
    rewrite elem_of_union, elem_of_singleton. intros [->|Hin]; [done|].
    apply (Hseen s'); [by right|done].
Qed.

Lemma check_duplicates_throw seen slugs :
  ¬ (NoDup slugs ∧ ∀ s, s ∈ slugs → s ∉ seen) →
  ∃ s, s ∈ slugs ∧
       check_duplicates seen slugs = throw ("Duplicate slug detected: " +:+ s).
Proof.
  revert seen. induction slugs as [|s slugs IH]; intros seen Hbad.
  - exfalso. apply Hbad. split; [constructor|]. intros s Hs. inversion Hs.
  - simpl. destruct (decide (s ∈ seen)) as [Hin|Hnin].
    + exists s. split; [left|done].
    + destruct (IH ({[s]} ∪ seen)) as (s' & Hs' & Hthrow).
      * intros [Hnd Hseen]. apply Hbad. split.
        -- apply NoDup_cons. split; [|done]. intros Hs. apply (Hseen s Hs).
           set_solver.
        -- intros s' Hs'. apply elem_of_cons in Hs' as [->|Hs']; [done|].
           specialize (Hseen s' Hs'). set_solver.
      * exists s'. split; [by right|done].
Qed.

Lemma slugs_of_elem names f :
  f ∈ names → endsWith f ".md" = true → replace_md_end f ∈ slugs_of names.
Proof.
  intros Hf Hmd. unfold slugs_of. apply list_elem_of_fmap. exists f.
  split; [done|]. apply list_elem_of_In, filter_In. split; [|done].
  by apply list_elem_of_In.
Qed.

Lemma slugs_of_NoDup names i j f g :
  NoDup (slugs_of names) → (i < j)%nat →
  names !! i = Some f → names !! j = Some g →
  endsWith f ".md" = true → endsWith g ".md" = true →
  replace_md_end f ≠ replace_md_end g.
Proof.
  revert i j. induction names as [|x names IH]; intros i j Hnd Hij Hi Hj Hf Hg.
  - done.
  - destruct j as [|j]; [lia|]. simpl in Hj.
    destruct i as [|i].
    + simpl in Hi. injection Hi as ->.
      unfold slugs_of in Hnd. simpl in Hnd. rewrite Hf in Hnd. simpl in Hnd.
      apply NoDup_cons in Hnd as [Hnin _]. intros E. apply Hnin. rewrite E.
      apply slugs_of_elem; [|done]. by eapply list_elem_of_lookup_2.
    + simpl in Hi. apply (IH i j); [|lia|done..].
      unfold slugs_of in Hnd. simpl in Hnd.
      destruct (endsWith x ".md"); [|done].
      simpl in Hnd. by apply NoDup_cons in Hnd as [_ Hnd].
Qed.

(** Stripping [.md] keeps different names different. *)
Lemma slugs_of_distinct_names names :
  NoDup (List.filter (fun fileName => endsWith fileName ".md") names) →
  NoDup (slugs_of names).
Proof.
  intros Hnd. unfold slugs_of. apply NoDup_fmap_2_strong; [|done].
  intros f g Hf%list_elem_of_In%filter_In Hg%list_elem_of_In%filter_In E.
  apply replace_md_end_inj; tauto.
Qed.

Lemma getAllSlugs_listing names :
  existsSync rt (blogsDirectory rt) = true →
  readdirSync rt (blogsDirectory rt) = Return names →
  getAllSlugs rt =
    bind (check_duplicates ∅ (slugs_of names))
         (fun _ => ret (slugs_of names)).
Proof.
  intros Hdir Hls. unfold getAllSlugs. rewrite Hdir. simpl negb. cbv iota.
  by rewrite (bind_lift_Return _ _ names Hls).
Qed.

(** Without a repeated slug the listing is returned as it is. *)
Lemma getAllSlugs_NoDup names :
  existsSync rt (blogsDirectory rt) = true →
  readdirSync rt (blogsDirectory rt) = Return names →
  NoDup (slugs_of names) →
  getAllSlugs rt = (Return (slugs_of names), []).
Proof.
  intros Hdir Hls Hnd. rewrite (getAllSlugs_listing names Hdir Hls).
  rewrite check_duplicates_ok; [done..|]. set_solver.
Qed.

Lemma getAllSlugs_Throw e out :
  getAllSlugs rt = (Throw e, out) →
  getAllPosts rt = (Throw e, out) ∧ getAllPostsMeta rt = (Throw e, out).
Proof.
  intros H. assert (getAllPosts rt = (Throw e, out)) as HP.
  { unfold getAllPosts. by rewrite (bind_Throw _ _ e out H). }
  split; [done|]. unfold getAllPostsMeta. by rewrite (bind_Throw _ _ e out HP).
Qed.

End Slugs.

(** C1 (as amended).  When two entries of the directory listing that end
    in [.md] give the same slug once [.md] is stripped, the two entry
    names are identical, [getAllSlugs] throws [Duplicate slug detected]
    for a slug of the listing, and [getAllPosts] and [getAllPostsMeta]
    throw the same error, so no post is returned.  When the entries that
    end in [.md] are pairwise different, whatever their letter case,
    [getAllSlugs] returns their slugs. *)
Theorem duplicate_slug_is_fatal rt names :
  existsSync rt (blogsDirectory rt) = true →
  readdirSync rt (blogsDirectory rt) = Return names →
  (∀ i j f g,
     i ≠ j → names !! i = Some f → names !! j = Some g →
     endsWith f ".md" = true → endsWith g ".md" = true →
     replace_md_end f = replace_md_end g →
     f = g ∧
     ∃ slug, slug ∈ slugs_of names ∧
       getAllSlugs rt = (Throw ("Duplicate slug detected: " +:+ slug), []) ∧
       getAllPosts rt = (Throw ("Duplicate slug detected: " +:+ slug), []) ∧
       getAllPostsMeta rt
         = (Throw ("Duplicate slug detected: " +:+ slug), [])) ∧
  (NoDup (List.filter (fun fileName => endsWith fileName ".md") names) →
   getAllSlugs rt = (Return (slugs_of names), [])).
Proof.
  intros Hdir Hls. split.
  - intros i j f g Hij Hi Hj Hf Hg E. split; [by apply replace_md_end_inj|].
    destruct (check_duplicates_throw ∅ (slugs_of names))
      as (slug & Hin & Hthrow).
    { intros [Hnd _].
      destruct (decide (i < j)%nat).
      - by apply (slugs_of_NoDup names i j f g).
      - apply (slugs_of_NoDup names j i g f); [done|lia|done..]. }
    exists slug. split; [done|].
    assert (getAllSlugs rt
            = (Throw ("Duplicate slug detected: " +:+ slug), [])) as HS.
    { rewrite (getAllSlugs_listing rt names Hdir Hls), Hthrow. done. }
    split; [done|]. by apply getAllSlugs_Throw.
  - intros Hnd. apply (getAllSlugs_NoDup rt names Hdir Hls).
    by apply slugs_of_distinct_names.
Qed.

(** The two entries of [store_twice], and the entries of [store_case]. *)
Lemma duplicate_slug_is_fatal_witness :
  ("intro.md" = "intro.md" ∧
   ∃ slug, slug ∈ slugs_of ["intro.md"; "intro.md"] ∧
     getAllSlugs store_twice
       = (Throw ("Duplicate slug detected: " +:+ slug), []) ∧
     getAllPosts store_twice
       = (Throw ("Duplicate slug detected: " +:+ slug), []) ∧
     getAllPostsMeta store_twice
       = (Throw ("Duplicate slug detected: " +:+ slug), [])) ∧
  getAllSlugs store_case
    = (Return (slugs_of ["Intro.md"; "intro.md"; "intro.MD"]), []).
Proof.
  split.
  - refine (proj1 (duplicate_slug_is_fatal store_twice ["intro.md"; "intro.md"]
                     _ _)
              0%nat 1%nat "intro.md" "intro.md" _ _ _ _ _ _);
      evaluate.
  - refine (proj2 (duplicate_slug_is_fatal store_case
                     ["Intro.md"; "intro.md"; "intro.MD"] _ _) _);
      evaluate.
Defined.

(** C1 (as stated) fails: [Intro.md], [intro.md] and [intro.MD] differ by
    letter case only, yet [getAllSlugs] returns the slugs [Intro] and
    [intro] without an error, and [getAllPosts] returns both posts. *)
Lemma case_variants_are_not_rejected :
  toLowerCase "Intro.md" = toLowerCase "intro.md" ∧
  toLowerCase "intro.MD" = toLowerCase "intro.md" ∧
  readdirSync store_case (blogsDirectory store_case)
    = Return ["Intro.md"; "intro.md"; "intro.MD"] ∧
  getAllSlugs store_case = (Return ["Intro"; "intro"], []) ∧
  fst (getAllPostsMeta store_case) =
    Return [ {| BlogPostMeta.slug := "Intro";
                BlogPostMeta.title := JString "Intro";
                BlogPostMeta.description := JUndefined;
                BlogPostMeta.date := JString "2026-01-02";
                BlogPostMeta.tags := JUndefined |};
             {| BlogPostMeta.slug := "intro";
                BlogPostMeta.title := JString "intro";
                BlogPostMeta.description := JUndefined;
                BlogPostMeta.date := JString "2026-01-01";
                BlogPostMeta.tags := JUndefined |} ].
Proof. repeat split; vm_compute; reflexivity. Qed.

(** ** The sort *)

Section Sort.
Context {A : Type} (comparefn : A → A → option Z).

(** What the sort needs of the comparator: when [x] compares greater
    than [y], [y] does not compare greater than [x]. *)
Hypothesis comparefn_consistent :
  ∀ x y, 0 < SortCompare comparefn x y → SortCompare comparefn y x ≤ 0.

Lemma sort_insert_Permutation x l : sort_insert comparefn x l ≡ₚ x :: l.
Proof.
  induction l as [|y l IH]; simpl; [done|].
  destruct (0 <? SortCompare comparefn x y); [|done].
  rewrite IH. apply Permutation_swap.
Qed.

Lemma Array_sort_Permutation l : Array_sort comparefn l ≡ₚ l.
Proof.
  induction l as [|x l IH]; simpl; [done|].
  by rewrite sort_insert_Permutation, IH.
Qed.

Lemma sort_insert_HdRel x y l :
  (in_order comparefn) y x → HdRel (in_order comparefn) y l →
  HdRel (in_order comparefn) y (sort_insert comparefn x l).
Proof.
  intros Hyx Hyl. destruct l as [|z l]; simpl; [by constructor|].
  destruct (0 <? SortCompare comparefn x z); constructor; [|done].
  by inversion Hyl.
Qed.

Lemma sort_insert_Sorted x l :
  Sorted (in_order comparefn) l → Sorted (in_order comparefn) (sort_insert comparefn x l).
Proof.
  induction l as [|y l IH]; intros Hl; simpl.
  - by repeat constructor.
  - inversion Hl as [|? ? Hl' Hy]; subst.
    destruct (0 <? SortCompare comparefn x y) eqn:E.
    + apply Z.ltb_lt in E. constructor; [by apply IH|].
      apply sort_insert_HdRel; [|done]. by apply comparefn_consistent.
    + apply Z.ltb_ge in E. by repeat constructor.
Qed.

Lemma Array_sort_Sorted l : Sorted (in_order comparefn) (Array_sort comparefn l).
Proof.
  induction l as [|x l IH]; simpl; [constructor|].
  by apply sort_insert_Sorted.
Qed.

End Sort.

Lemma Sorted_adjacent {A} (R : A → A → Prop) (l : list A) i a b :
  Sorted R l → l !! i = Some a → l !! S i = Some b → R a b.
Proof.
  intros Hl. revert i. induction Hl as [|x l Hl IH Hx]; intros i Hi Hj; [done|].
  destruct i as [|i].
  - simpl in Hi, Hj. injection Hi as ->. destruct l as [|y l]; [done|].
    simpl in Hj. injection Hj as ->. by inversion Hx.
  - by apply (IH i).
Qed.

(** ** Loading one post *)

Section Loading.
Context (rt : Runtime).

Lemma for_each_console_warn (f : string → string) lines :
  for_each (fun w => console_warn (f w)) lines = (Return tt, map f lines).
Proof.
  induction lines as [|w lines IH]; [done|].
  simpl. rewrite IH. done.
Qed.

Lemma validateFrontmatter_ok data slug :
  frontmatter_errors rt data = [] →
  validateFrontmatter rt data slug =
    (Return tt, map (warning_line slug) (frontmatter_warnings data)).
Proof.
  intros He. unfold validateFrontmatter. rewrite for_each_console_warn, He.
  simpl. by rewrite app_nil_r.
Qed.

Lemma validateFrontmatter_Throw data slug :
  frontmatter_errors rt data ≠ [] →
  validateFrontmatter rt data slug =
    (Throw (validation_message slug (frontmatter_errors rt data)),
     map (warning_line slug) (frontmatter_warnings data)).
Proof.
  intros He. unfold validateFrontmatter. rewrite for_each_console_warn.
  destruct (frontmatter_errors rt data) as [|e errors]; [done|].
  simpl. by rewrite app_nil_r.
Qed.

(** Once the file of [slug] exists, is read as [text] and parsed into
    [data] and the markdown [body], what is left of [getPostBySlug] is the
    validation and the rendering. *)
Lemma getPostBySlug_parsed slug text data body :
  existsSync rt (fullPath rt slug) = true →
  readFileSync rt (fullPath rt slug) = Return text →
  matter rt text = Return (data, body) →
  getPostBySlug rt slug =
    (run validateFrontmatter rt data slug;
     do contentHtml <- markdownToHtml rt body;
     ret (Some (make_post slug data body contentHtml))).
Proof.
  intros Hex Hread Hm. unfold getPostBySlug.
  rewrite Hex. simpl negb. cbv iota.
  rewrite (bind_lift_Return _ _ text Hread).
  by rewrite (bind_lift_Return _ _ (data, body) Hm).
Qed.

Lemma getPostBySlug_invalid slug text data body :
  existsSync rt (fullPath rt slug) = true →
  readFileSync rt (fullPath rt slug) = Return text →
  matter rt text = Return (data, body) →
  frontmatter_errors rt data ≠ [] →
  getPostBySlug rt slug =
    (Throw (validation_message slug (frontmatter_errors rt data)),
     map (warning_line slug) (frontmatter_warnings data)).
Proof.
  intros Hex Hread Hm He.
  rewrite (getPostBySlug_parsed slug text data body Hex Hread Hm).
  by rewrite (bind_Throw _ _ _ _ (validateFrontmatter_Throw data slug He)).
Qed.

Lemma getPostBySlug_valid slug text data body html :
  existsSync rt (fullPath rt slug) = true →
  readFileSync rt (fullPath rt slug) = Return text →
  matter rt text = Return (data, body) →
  frontmatter_errors rt data = [] →
  unified_process rt body = Return html →
  getPostBySlug rt slug =
    (Return (Some (make_post slug data body html)),
     map (warning_line slug) (frontmatter_warnings data)
     ++ unified_console rt body).
Proof.
  intros Hex Hread Hm He Hhtml.
  rewrite (getPostBySlug_parsed slug text data body Hex Hread Hm).
  rewrite (bind_Return _ _ _ _ (validateFrontmatter_ok data slug He)).
  unfold markdownToHtml. rewrite Hhtml. simpl. by rewrite app_nil_r.
Qed.

(** A post that is returned comes from a file that parses, passes the
    validation and renders. *)
Lemma getPostBySlug_Some_inv slug p out :
  getPostBySlug rt slug = (Return (Some p), out) →
  ∃ text data body html,
    existsSync rt (fullPath rt slug) = true ∧
    readFileSync rt (fullPath rt slug) = Return text ∧
    matter rt text = Return (data, body) ∧
    frontmatter_errors rt data = [] ∧
    unified_process rt body = Return html ∧
    p = make_post slug data body html.
Proof.
  intros H.
  destruct (existsSync rt (fullPath rt slug)) eqn:Hex.
  2:{ unfold getPostBySlug in H. rewrite Hex in H. discriminate. }
  destruct (readFileSync rt (fullPath rt slug)) as [text|e] eqn:Hread.
  2:{ unfold getPostBySlug in H. rewrite Hex, Hread in H. discriminate. }
  destruct (matter rt text) as [[data body]|e] eqn:Hm.
  2:{ unfold getPostBySlug in H. rewrite Hex, Hread in H. simpl in H.
      rewrite Hm in H. discriminate. }
  destruct (decide (frontmatter_errors rt data = [])) as [He|He].
  2:{ rewrite (getPostBySlug_invalid slug text data body Hex Hread Hm He) in H.
      discriminate. }
  destruct (unified_process rt body) as [html|e] eqn:Hhtml.
  - rewrite (getPostBySlug_valid slug text data body html Hex Hread Hm He Hhtml)
      in H.
    injection H as <- _. by exists text, data, body, html.
  - rewrite (getPostBySlug_parsed slug text data body Hex Hread Hm) in H.
    rewrite (bind_Return _ _ _ _ (validateFrontmatter_ok data slug He)) in H.
    unfold markdownToHtml in H. rewrite Hhtml in H. discriminate.
Qed.

Lemma frontmatter_errors_date data :
  frontmatter_errors rt data = [] →
  ∃ t, new_Date rt (get data "date") = Some t.
Proof.
  unfold frontmatter_errors. intros H. apply app_eq_nil in H as [_ H].
  destruct (negb (ToBoolean (get data "date"))); [discriminate|].
  destruct (new_Date rt (get data "date")) as [t|]; [eauto|discriminate].
Qed.

End Loading.

(** ** Listing the posts *)

Section Listing.
Context (rt : Runtime).

(** The loop returns the posts it was given followed by the published
    posts of the slugs. *)
Lemma collect_posts_Return slugs posts l out :
  collect_posts rt slugs posts = (Return l, out) →
  ∃ loaded, l = posts ++ loaded ∧
    ∀ p, p ∈ loaded ↔
         BlogPost.published p = true ∧
         ∃ slug o, slug ∈ slugs ∧
                   getPostBySlug rt slug = (Return (Some p), o).
Proof.
  revert posts out. induction slugs as [|s slugs IH]; intros posts out H.
  - injection H as <- <-. exists []. split; [by rewrite app_nil_r|].
    intros p. split; [by intros ?%elem_of_nil|].
    by intros (_ & slug & o & ?%elem_of_nil & _).
  - simpl in H. apply bind_Return_inv in H as (r & o1 & o2 & Hs & Hrest & _).
    apply IH in Hrest as (loaded & -> & Hloaded).
    destruct r as [q|]; simpl; [destruct (BlogPost.published q) eqn:Hq|].
    + exists (q :: loaded). split; [by rewrite <- app_assoc|].
      intros p. rewrite elem_of_cons, Hloaded. split.
      * intros [->|(Hp & slug & o & Hin & Hload)].
        -- split; [done|]. exists s, o1. split; [left|done].
        -- split; [done|]. exists slug, o. split; [by right|done].
      * intros (Hp & slug & o & Hin & Hload).
        apply elem_of_cons in Hin as [->|Hin].
        -- left. rewrite Hs in Hload. by injection Hload as ->.
        -- right. eauto.
    + exists loaded. split; [done|].
      intros p. rewrite Hloaded. split.
      * intros (Hp & slug & o & Hin & Hload).
        split; [done|]. exists slug, o. split; [by right|done].
      * intros (Hp & slug & o & Hin & Hload). split; [done|].
        apply elem_of_cons in Hin as [->|Hin]; [|eauto].
        rewrite Hs in Hload. injection Hload as -> _. congruence.
    + exists loaded. split; [done|].
      intros p. rewrite Hloaded. split.
      * intros (Hp & slug & o & Hin & Hload).
        split; [done|]. exists slug, o. split; [by right|done].
      * intros (Hp & slug & o & Hin & Hload). split; [done|].
        apply elem_of_cons in Hin as [->|Hin]; [|eauto].
        rewrite Hs in Hload. discriminate.
Qed.

(** A slug whose load throws makes the loop throw; the error is that of
    the first slug that throws. *)
Lemma collect_posts_Throw before slug after posts e o :
  getPostBySlug rt slug = (Throw e, o) →
  (∃ e' out, collect_posts rt (before ++ slug :: after) posts
             = (Throw e', out)) ∧
  (Forall (fun s => ∃ r out, getPostBySlug rt s = (Return r, out)) before →
   ∃ out, collect_posts rt (before ++ slug :: after) posts = (Throw e, out)).
Proof.
  intros Hs. revert posts. induction before as [|b before IH]; intros posts.
  - simpl. rewrite (bind_Throw _ _ e o Hs). split; [|intros _]; eauto.
  - simpl. destruct (getPostBySlug rt b) as [[r|e1] o1] eqn:Hb.
    + rewrite (bind_Return _ _ r o1 eq_refl).
      destruct (IH (push_published posts r)) as [(e' & out & H1) H2]. split.
      * rewrite H1. simpl. eauto.
      * intros Hall. apply Forall_cons in Hall as [_ Hall].
        destruct (H2 Hall) as (out' & ->). simpl. eauto.
    + rewrite (bind_Throw _ _ e1 o1 eq_refl). split; [eauto|].
      intros Hall. apply Forall_cons in Hall as [(r & out & Hr) _].
      rewrite Hb in Hr. discriminate.
Qed.

Lemma getAllPosts_Return_inv posts out :
  getAllPosts rt = (Return posts, out) →
  ∃ slugs o1 l o2,
    getAllSlugs rt = (Return slugs, o1) ∧
    collect_posts rt slugs [] = (Return l, o2) ∧
    posts = Array_sort (newest_first rt) l.
Proof.
  unfold getAllPosts. intros H.
  apply bind_Return_inv in H as (slugs & o1 & o' & Hslugs & H & _).
  apply bind_Return_inv in H as (l & o2 & o3 & Hl & H & _).
  injection H as <- _. by exists slugs, o1, l, o2.
Qed.

Lemma getAllPosts_Throw slugs o1 e o2 :
  getAllSlugs rt = (Return slugs, o1) →
  collect_posts rt slugs [] = (Throw e, o2) →
  getAllPosts rt = (Throw e, o1 ++ o2) ∧
  getAllPostsMeta rt = (Throw e, o1 ++ o2).
Proof.
  intros Hslugs Hl.
  assert (getAllPosts rt = (Throw e, o1 ++ o2)) as HP.
  { unfold getAllPosts. rewrite (bind_Return _ _ slugs o1 Hslugs).
    by rewrite (bind_Throw _ _ e o2 Hl). }
  split; [done|]. unfold getAllPostsMeta. by rewrite (bind_Throw _ _ _ _ HP).
Qed.

Lemma newest_first_consistent (x y : BlogPost.t) :
  0 < SortCompare (newest_first rt) x y →
  SortCompare (newest_first rt) y x ≤ 0.
Proof.
  unfold SortCompare, newest_first.
  destruct (new_Date rt (BlogPost.date x)), (new_Date rt (BlogPost.date y));
    simpl; lia.
Qed.

(** The posts of a listing, and where they come from. *)
Lemma getAllPosts_elem posts out p :
  getAllPosts rt = (Return posts, out) →
  p ∈ posts ↔
    BlogPost.published p = true ∧
    ∃ slugs o1 slug o,
      getAllSlugs rt = (Return slugs, o1) ∧ slug ∈ slugs ∧
      getPostBySlug rt slug = (Return (Some p), o).
Proof.
  intros H. apply getAllPosts_Return_inv in H as (slugs & o1 & l & o2 & Hs & Hl & ->).
  apply collect_posts_Return in Hl as (loaded & -> & Hloaded). simpl.
  rewrite (Array_sort_Permutation (newest_first rt) loaded), Hloaded.
  split.
  - intros (Hp & slug & o & Hin & Hload). split; [done|].
    by exists slugs, o1, slug, o.
  - intros (Hp & slugs' & o1' & slug & o & Hs' & Hin & Hload).
    split; [done|]. rewrite Hs in Hs'. injection Hs' as <- <-. eauto.
Qed.

End Listing.

Lemma fst_Return {A} (m : M A) (a : A) :
  fst m = Return a → ∃ out, m = (Return a, out).
Proof. destruct m as [r out]. simpl. intros ->. eauto. Qed.

Lemma strict_ne_false_true v : strict_ne_false v = true ↔ v ≠ JBool false.
Proof.
  split.
  - by intros H ->.
  - intros H. by destruct v as [| |[]| | | | |].
Qed.

(** C2.  When [getAllPosts] returns, the posts are sorted by date, newest
    first: of two adjacent posts [a] and [b], both have a valid date and
    the time value of [a] is at least that of [b]. *)
Theorem getAllPosts_newest_first rt posts i a b :
  fst (getAllPosts rt) = Return posts →
  posts !! i = Some a → posts !! S i = Some b →
  ∃ dateA dateB,
    new_Date rt (BlogPost.date a) = Some dateA ∧
    new_Date rt (BlogPost.date b) = Some dateB ∧
    dateB ≤ dateA.
Proof.
  intros [out H]%fst_Return Ha Hb.
  assert (∀ p, p ∈ posts → ∃ t, new_Date rt (BlogPost.date p) = Some t)
    as Hdate.
  { intros p Hp. apply (getAllPosts_elem rt posts out p H) in Hp
      as (_ & slugs & o1 & slug & o & _ & _ & Hload).
    apply getPostBySlug_Some_inv in Hload
      as (text & data & body & html & _ & _ & _ & He & _ & ->).
    by apply frontmatter_errors_date. }
  destruct (Hdate a) as [dateA HA]; [by eapply list_elem_of_lookup_2|].
  destruct (Hdate b) as [dateB HB]; [by eapply list_elem_of_lookup_2|].
  exists dateA, dateB. split; [done|]. split; [done|].
  apply getAllPosts_Return_inv in H as (slugs & o1 & l & o2 & _ & _ & ->).
  pose proof (Array_sort_Sorted (newest_first rt)
                (newest_first_consistent rt) l) as Hsorted.
  pose proof (Sorted_adjacent _ _ i a b Hsorted Ha Hb) as Hab.
  unfold in_order, SortCompare, newest_first in Hab.
  rewrite HA, HB in Hab. simpl in Hab. lia.
Qed.

(** C3.  A post of the listing that parses, passes the validation and
    renders is returned by [getPostBySlug] whatever its [published] value
    is, [published: false] included; its [published] field is true unless
    the frontmatter value is the boolean [false] (an absent field reads
    as [undefined]); when [getAllPosts] returns, the post is among its
    posts if and only if the [published] value of the frontmatter is not
    the boolean [false], and it is the only post of the result with its
    slug. *)
Theorem published_filter rt slugs posts slug text data body html :
  fst (getAllSlugs rt) = Return slugs → slug ∈ slugs →
  fst (getAllPosts rt) = Return posts →
  existsSync rt (fullPath rt slug) = true →
  readFileSync rt (fullPath rt slug) = Return text →
  matter rt text = Return (data, body) →
  frontmatter_errors rt data = [] →
  unified_process rt body = Return html →
  fst (getPostBySlug rt slug)
    = Return (Some (make_post slug data body html)) ∧
  (BlogPost.published (make_post slug data body html) = true
     ↔ get data "published" ≠ JBool false) ∧
  (make_post slug data body html ∈ posts
     ↔ get data "published" ≠ JBool false) ∧
  (∀ q, q ∈ posts → BlogPost.slug q = slug →
        q = make_post slug data body html).
Proof.
  intros [o1 Hslugs]%fst_Return Hin [out Hposts]%fst_Return
    Hex Hread Hm He Hhtml.
  pose proof (getPostBySlug_valid rt slug text data body html
                Hex Hread Hm He Hhtml) as Hload.
  split; [by rewrite Hload|]. split; [apply strict_ne_false_true|]. split.
  - rewrite (getAllPosts_elem rt posts out _ Hposts).
    rewrite <- strict_ne_false_true. split; [by intros [? _]|].
    intros Hpub. split; [done|]. eauto 8.
  - intros q Hq Hslug.
    apply (getAllPosts_elem rt posts out q Hposts) in Hq
      as (_ & slugs' & o1' & slug' & o & _ & _ & Hload').
    pose proof Hload' as Hinv. apply getPostBySlug_Some_inv in Hinv
      as (text' & data' & body' & html' & _ & _ & _ & _ & _ & Hq).
    assert (slug' = slug) as -> by (by rewrite Hq in Hslug).
    rewrite Hload in Hload'. by injection Hload' as <- _.
Qed.

(** C5.  When one slug of the listing has a file whose frontmatter fails
    the validation (whatever its [published] value), [getAllPosts] and
    [getAllPostsMeta] throw and return nothing; when the slugs before it
    load, the error thrown is the validation error of that post. *)
Theorem invalid_post_aborts_listing rt before slug after text data body :
  fst (getAllSlugs rt) = Return (before ++ slug :: after) →
  existsSync rt (fullPath rt slug) = true →
  readFileSync rt (fullPath rt slug) = Return text →
  matter rt text = Return (data, body) →
  frontmatter_errors rt data ≠ [] →
  (∃ e out, getAllPosts rt = (Throw e, out) ∧
            getAllPostsMeta rt = (Throw e, out)) ∧
  (Forall (fun s => ∃ r out, getPostBySlug rt s = (Return r, out)) before →
   fst (getAllPosts rt)
     = Throw (validation_message slug (frontmatter_errors rt data)) ∧
   fst (getAllPostsMeta rt)
     = Throw (validation_message slug (frontmatter_errors rt data))).
Proof.
  intros [o1 Hslugs]%fst_Return Hex Hread Hm He.
  pose proof (getPostBySlug_invalid rt slug text data body Hex Hread Hm He)
    as Hload.
  destruct (collect_posts_Throw rt before slug after [] _ _ Hload)
    as [(e & out & H1) H2].
  split.
  - exists e, (o1 ++ out). apply (getAllPosts_Throw rt _ o1 e out Hslugs H1).
  - intros Hbefore. destruct (H2 Hbefore) as [out' H].
    destruct (getAllPosts_Throw rt _ o1 _ out' Hslugs H) as [-> ->]. done.
Qed.

(** C7.  When the content directory does not exist, [getAllSlugs],
    [getAllPosts] and [getAllPostsMeta] return the empty list; nothing is
    thrown and the one line logged is the warning of [getAllSlugs]. *)
Theorem missing_directory_is_empty rt :
  existsSync rt (blogsDirectory rt) = false →
  getAllSlugs rt
    = (Return [], ["Blogs directory not found: " +:+ blogsDirectory rt]) ∧
  getAllPosts rt
    = (Return [], ["Blogs directory not found: " +:+ blogsDirectory rt]) ∧
  getAllPostsMeta rt
    = (Return [], ["Blogs directory not found: " +:+ blogsDirectory rt]).
Proof.
  intros H.
  assert (getAllSlugs rt
          = (Return [], ["Blogs directory not found: " +:+ blogsDirectory rt]))
    as HS by (unfold getAllSlugs; by rewrite H).
  assert (getAllPosts rt
          = (Return [], ["Blogs directory not found: " +:+ blogsDirectory rt]))
    as HP by (unfold getAllPosts; by rewrite HS).
  repeat split; [done..|]. unfold getAllPostsMeta. by rewrite HP.
Qed.

(** C8.  When [getAllPosts] and [getAllPostsMeta] both return, the second
    result is the first one projected: as many entries, in the same order,
    each with the slug, title, description, date and tags of its post;
    both calls log the same lines. *)
Theorem meta_is_projection rt posts metas :
  fst (getAllPosts rt) = Return posts →
  fst (getAllPostsMeta rt) = Return metas →
  length metas = length posts ∧
  snd (getAllPostsMeta rt) = snd (getAllPosts rt) ∧
  ∀ i p, posts !! i = Some p →
    ∃ m, metas !! i = Some m ∧
      BlogPostMeta.slug m = BlogPost.slug p ∧
      BlogPostMeta.title m = BlogPost.title p ∧
      BlogPostMeta.description m = BlogPost.description p ∧
      BlogPostMeta.date m = BlogPost.date p ∧
      BlogPostMeta.tags m = BlogPost.tags p.
Proof.
  intros [out HP]%fst_Return HM. unfold getAllPostsMeta in HM |- *.
  rewrite HP in HM |- *. simpl in HM |- *. injection HM as <-.
  split; [by rewrite length_map|]. split; [by rewrite app_nil_r|].
  intros i p Hp. exists (post_meta p). split; [|done].
  by rewrite list_lookup_fmap, Hp.
Qed.

(** ** Substrings *)

Lemma append_String c s t : String c s +:+ t = String c (s +:+ t).
Proof. reflexivity. Qed.

Lemma append_nil_l s : "" +:+ s = s.
Proof. reflexivity. Qed.

Lemma append_assoc s t u : (s +:+ t) +:+ u = s +:+ t +:+ u.
Proof.
  induction s as [|c s IH]; [done|]. by rewrite !append_String, IH.
Qed.

Lemma startsWith_spec s prefix :
  startsWith s prefix = true ↔ ∃ post, s = prefix +:+ post.
Proof.
  revert s. induction prefix as [|a prefix IH]; intros s; simpl.
  - split; [intros _; exists s; reflexivity|intros _; reflexivity].
  - destruct s as [|b s].
    + split; [discriminate|]. intros [post H]. discriminate.
    + rewrite andb_true_iff, Ascii.eqb_eq, IH. split.
      * intros [-> [post ->]]. by exists post.
      * intros [post H]. rewrite append_String in H.
        injection H as -> ->. eauto.
Qed.

Lemma includes_spec s part :
  includes s part = true ↔ ∃ pre post, s = pre +:+ part +:+ post.
Proof.
  induction s as [|c s IH]; cbn [includes].
  - rewrite orb_false_r, startsWith_spec. split.
    + intros [post H]. by exists "", post.
    + intros (pre & post & H). destruct pre as [|c pre]; [eauto|done].
  - rewrite orb_true_iff, startsWith_spec, IH. split.
    + intros [[post H]|(pre & post & H)].
      * by exists "", post.
      * exists (String c pre), post. by rewrite H.
    + intros (pre & post & H). destruct pre as [|c' pre].
      * left. by exists post.
      * right. rewrite append_String in H. injection H as -> ->. eauto.
Qed.

Lemma includes_refl s : includes s s = true.
Proof.
  apply includes_spec. exists "", "". rewrite append_nil_l.
  induction s as [|c s IH]; [done|]. by rewrite append_String, <- IH.
Qed.

Lemma includes_trans s t u :
  includes s t = true → includes t u = true → includes s u = true.
Proof.
  rewrite !includes_spec. intros (p1 & q1 & ->) (p2 & q2 & ->).
  exists (p1 +:+ p2), (q2 +:+ q1). by rewrite !append_assoc.
Qed.

Lemma includes_append_r pre s part :
  includes s part = true → includes (pre +:+ s) part = true.
Proof.
  rewrite !includes_spec. intros (p & q & ->).
  exists (pre +:+ p), q. by rewrite !append_assoc.
Qed.

Lemma includes_append_l s post part :
  includes s part = true → includes (s +:+ post) part = true.
Proof.
  rewrite !includes_spec. intros (p & q & ->).
  exists p, (q +:+ post). by rewrite !append_assoc.
Qed.

Lemma join_includes sep items item :
  item ∈ items → includes (join sep items) item = true.
Proof.
  induction items as [|x items IH]; [by intros ?%elem_of_nil|].
  intros Hin. destruct items as [|y items].
  - apply list_elem_of_singleton in Hin as ->. apply includes_refl.
  - change (includes (x +:+ sep +:+ join sep (y :: items)) item = true).
    apply elem_of_cons in Hin as [->|Hin].
    + apply includes_append_l, includes_refl.
    + by apply includes_append_r, includes_append_r, IH.
Qed.

Lemma validation_message_includes slug errors line :
  line ∈ errors → includes (validation_message slug errors) line = true.
Proof.
  intros Hin. unfold validation_message.
  by do 5 apply includes_append_r; apply join_includes.
Qed.

(** ** The validation *)

Section Validation.
Context (rt : Runtime).

Lemma rejects_with_intro slug text data body line field :
  existsSync rt (fullPath rt slug) = true →
  readFileSync rt (fullPath rt slug) = Return text →
  matter rt text = Return (data, body) →
  line ∈ frontmatter_errors rt data → includes line field = true →
  rejects_with rt slug data line field.
Proof.
  intros Hex Hread Hm Hin Hfield.
  assert (frontmatter_errors rt data ≠ []) as He.
  { intros E. rewrite E in Hin. by apply elem_of_nil in Hin. }
  split; [|split; [done|split; [done|]]].
  - by rewrite (getPostBySlug_invalid rt slug text data body Hex Hread Hm He).
  - apply (includes_trans _ line); [|done].
    by apply validation_message_includes.
Qed.

Lemma get_None (data : Frontmatter) key :
  data !! key = None → get data key = JUndefined.
Proof. unfold get. by intros ->. Qed.

Lemma get_Some (data : Frontmatter) key v :
  data !! key = Some v → get data key = v.
Proof. unfold get. by intros ->. Qed.

Lemma get_delete (data : Frontmatter) key : get (delete key data) key = JUndefined.
Proof. unfold get. by rewrite lookup_delete_eq. Qed.

Lemma get_delete_ne (data : Frontmatter) key key' :
  key ≠ key' → get (delete key data) key' = get data key'.
Proof. intros H. unfold get. by rewrite lookup_delete_ne. Qed.

Lemma title_error data :
  typeof_is_string (get data "title") = false ∨
  ToBoolean (get data "title") = false →
  "Missing or invalid 'title' field" ∈ frontmatter_errors rt data.
Proof.
  intros H. unfold frontmatter_errors. apply elem_of_app. left.
  destruct H as [-> | ->]; rewrite ?orb_true_r; simpl; by left.
Qed.

Lemma date_error_missing data :
  ToBoolean (get data "date") = false →
  "Missing 'date' field" ∈ frontmatter_errors rt data.
Proof.
  intros H. unfold frontmatter_errors. apply elem_of_app. right.
  rewrite H. by left.
Qed.

Lemma date_error_invalid data :
  ToBoolean (get data "date") = true →
  new_Date rt (get data "date") = None →
  ("Invalid date format: " +:+ ToString rt (get data "date"))
    ∈ frontmatter_errors rt data.
Proof.
  intros H1 H2. unfold frontmatter_errors. apply elem_of_app. right.
  rewrite H1, H2. by left.
Qed.

(** The description plays no part in the errors. *)
Lemma frontmatter_errors_description data :
  frontmatter_errors rt (delete "description" data)
  = frontmatter_errors rt data.
Proof.
  unfold frontmatter_errors. by rewrite !get_delete_ne.
Qed.

End Validation.

(** C4.  For a file that exists and parses: when the title is missing or
    is not a string, when the date is missing, and when the date is a
    string that does not parse, [getPostBySlug] throws the validation error
    and its message has a line that names the field; when the required
    fields are valid and the description is missing, the post is returned
    and the console holds the one warning, followed by what the markdown
    processor wrote; in general, removing the description never changes
    whether the validation throws. *)
Theorem validation_policy rt slug text data body :
  existsSync rt (fullPath rt slug) = true →
  readFileSync rt (fullPath rt slug) = Return text →
  matter rt text = Return (data, body) →
  (data !! "title" = None ∨ typeof_is_string (get data "title") = false →
   rejects_with rt slug data "Missing or invalid 'title' field" "'title'") ∧
  (data !! "date" = None →
   rejects_with rt slug data "Missing 'date' field" "'date'") ∧
  (∀ s, data !! "date" = Some (JString s) → Date_parse rt s = None →
   rejects_with rt slug data
     (if String.eqb s "" then "Missing 'date' field"
      else "Invalid date format: " +:+ ToString rt (JString s))
     "date") ∧
  (frontmatter_errors rt data = [] → data !! "description" = None →
   ∀ html, unified_process rt body = Return html →
     getPostBySlug rt slug =
       (Return (Some (make_post slug data body html)),
        warning_line slug "Missing 'description' field (recommended for SEO)"
        :: unified_console rt body)) ∧
  fst (validateFrontmatter rt (delete "description" data) slug)
  = fst (validateFrontmatter rt data slug).
Proof.
  intros Hex Hread Hm. split; [|split; [|split; [|split]]].
  - intros H. apply (rejects_with_intro rt slug text data body); try done.
    apply title_error. left. destruct H as [H|H]; [|done].
    by rewrite (get_None _ _ H).
  - intros H. apply (rejects_with_intro rt slug text data body); try done.
    apply date_error_missing. by rewrite (get_None _ _ H).
  - intros s Hs Hparse. apply get_Some in Hs.
    apply (rejects_with_intro rt slug text data body); try done.
    + destruct (String.eqb s "") eqn:E.
      * apply date_error_missing. rewrite Hs. simpl. by rewrite E.
      * rewrite <- Hs. apply date_error_invalid.
        -- rewrite Hs. simpl. by rewrite E.
        -- by rewrite Hs.
    + destruct (String.eqb s ""); [done|].
      apply includes_append_l. done.
  - intros He Hd html Hhtml.
    rewrite (getPostBySlug_valid rt slug text data body html
               Hex Hread Hm He Hhtml).
    unfold frontmatter_warnings. by rewrite (get_None _ _ Hd).
  - destruct (decide (frontmatter_errors rt data = [])) as [He|He].
    + rewrite !validateFrontmatter_ok;
        [done..|by rewrite frontmatter_errors_description].
    + rewrite !validateFrontmatter_Throw;
        [|done|by rewrite frontmatter_errors_description].
      by rewrite frontmatter_errors_description.
Qed.

(** C10.  For a file that exists and parses: a title that is the empty
    string makes [getPostBySlug] throw the validation error with the line
    [Missing or invalid 'title' field], an empty date with the line
    [Missing 'date' field]; in both cases the errors are those of the
    frontmatter with the field removed. *)
Theorem empty_string_is_missing rt slug text data body :
  existsSync rt (fullPath rt slug) = true →
  readFileSync rt (fullPath rt slug) = Return text →
  matter rt text = Return (data, body) →
  (data !! "title" = Some (JString "") →
   rejects_with rt slug data "Missing or invalid 'title' field" "'title'" ∧
   frontmatter_errors rt data = frontmatter_errors rt (delete "title" data)) ∧
  (data !! "date" = Some (JString "") →
   rejects_with rt slug data "Missing 'date' field" "'date'" ∧
   frontmatter_errors rt data = frontmatter_errors rt (delete "date" data)).
Proof.
  intros Hex Hread Hm. split; intros H%get_Some.
  - split.
    + apply (rejects_with_intro rt slug text data body); try done.
      apply title_error. right. by rewrite H.
    + unfold frontmatter_errors.
      rewrite get_delete, (get_delete_ne _ "title" "date"); [|done].
      by rewrite H.
  - split.
    + apply (rejects_with_intro rt slug text data body); try done.
      apply date_error_missing. by rewrite H.
    + unfold frontmatter_errors.
      rewrite get_delete, (get_delete_ne _ "date" "title"); [|done].
      by rewrite H.
Qed.

(** ** The theorems at the example stores *)

Lemma getAllPosts_newest_first_witness :
  ∃ dateA dateB,
    new_Date store_posts (BlogPost.date post_newer) = Some dateA ∧
    new_Date store_posts (BlogPost.date post_older) = Some dateB ∧
    dateB ≤ dateA.
Proof.
  apply (getAllPosts_newest_first store_posts [post_newer; post_older] 0%nat);
    evaluate.
Defined.

Lemma published_filter_witness :
  fst (getPostBySlug store_posts "draft") = Return (Some post_draft) ∧
  (BlogPost.published post_draft = true
     ↔ get data_draft "published" ≠ JBool false) ∧
  (post_draft ∈ [post_newer; post_older]
     ↔ get data_draft "published" ≠ JBool false) ∧
  (∀ q, q ∈ [post_newer; post_older] → BlogPost.slug q = "draft" →
        q = post_draft).
Proof.
  apply (published_filter store_posts ["older"; "newer"; "draft"]
           [post_newer; post_older] "draft"
           (Demo.post_file "Draft" "2026-03-01" ("published: false" +:+ nl)
              "# Draft")
           data_draft "# Draft" "<p># Draft</p>");
    evaluate.
Defined.

Lemma validation_policy_witness :
  rejects_with store_invalid "untitled" data_untitled
    "Missing or invalid 'title' field" "'title'" ∧
  rejects_with store_dates "undated" data_undated
    "Missing 'date' field" "'date'" ∧
  rejects_with store_dates "someday" data_someday
    "Invalid date format: 2026-13-01" "date" ∧
  getPostBySlug store_dates "plain" =
    (Return (Some (make_post "plain" data_plain "text" "<p>text</p>")),
     ["[blogs/plain.md] Warning: Missing 'description' field (recommended for SEO)"]).
Proof.
  split; [|split; [|split]].
  - refine (proj1 (validation_policy store_invalid "untitled" text_untitled
                     data_untitled "body" _ _ _) _);
      [evaluate..|left; evaluate].
  - refine (proj1 (proj2 (validation_policy store_dates "undated" text_undated
                            data_undated "text" _ _ _)) _);
      evaluate.
  - refine (proj1 (proj2 (proj2 (validation_policy store_dates "someday"
              (Demo.post_file "Some day" "2026-13-01" "" "text")
              data_someday "text" _ _ _))) "2026-13-01" _ _);
      evaluate.
  - refine (proj1 (proj2 (proj2 (proj2 (validation_policy store_dates "plain"
              (Demo.post_file "Plain" "2026-01-07" "" "text")
              data_plain "text" _ _ _)))) _ _ "<p>text</p>" _);
      evaluate.
Defined.

Lemma invalid_post_aborts_listing_witness :
  fst (getAllPosts store_invalid)
    = Throw (validation_message "untitled"
               (frontmatter_errors store_invalid data_untitled)) ∧
  fst (getAllPostsMeta store_invalid)
    = Throw (validation_message "untitled"
               (frontmatter_errors store_invalid data_untitled)).
Proof.
  refine (proj2 (invalid_post_aborts_listing store_invalid ["good"] "untitled"
                   [] text_untitled data_untitled "body" _ _ _ _ _) _);
    [evaluate..|].
  repeat constructor. eexists _, _. vm_compute. reflexivity.
Defined.

Lemma missing_directory_is_empty_witness :
  getAllSlugs store_missing
    = (Return [], ["Blogs directory not found: /app/blogs"]) ∧
  getAllPosts store_missing
    = (Return [], ["Blogs directory not found: /app/blogs"]) ∧
  getAllPostsMeta store_missing
    = (Return [], ["Blogs directory not found: /app/blogs"]).
Proof. apply (missing_directory_is_empty store_missing). evaluate. Defined.

Lemma meta_is_projection_witness :
  length [post_meta post_newer; post_meta post_older]
    = length [post_newer; post_older] ∧
  snd (getAllPostsMeta store_posts) = snd (getAllPosts store_posts) ∧
  ∀ i p, [post_newer; post_older] !! i = Some p →
    ∃ m, [post_meta post_newer; post_meta post_older] !! i = Some m ∧
      BlogPostMeta.slug m = BlogPost.slug p ∧
      BlogPostMeta.title m = BlogPost.title p ∧
      BlogPostMeta.description m = BlogPost.description p ∧
      BlogPostMeta.date m = BlogPost.date p ∧
      BlogPostMeta.tags m = BlogPost.tags p.
Proof.
  apply (meta_is_projection store_posts [post_newer; post_older]
           [post_meta post_newer; post_meta post_older]);
    evaluate.
Defined.

Lemma empty_string_is_missing_witness :
  rejects_with store_empty "empty" data_empty
    "Missing or invalid 'title' field" "'title'" ∧
  rejects_with store_empty "empty" data_empty
    "Missing 'date' field" "'date'".
Proof.
  split.
  - refine (proj1 (proj1 (empty_string_is_missing store_empty "empty"
                            (Demo.post_file "" "" "" "text") data_empty "text"
                            _ _ _) _));
      evaluate.
  - refine (proj1 (proj2 (empty_string_is_missing store_empty "empty"
                            (Demo.post_file "" "" "" "text") data_empty "text"
                            _ _ _) _));
      evaluate.
Defined.


(** * More of the module and of its pages *)

(** ** The slugs of a listing *)

Lemma length_append s t :
  String.length (s +:+ t) = (String.length s + String.length t)%nat.
Proof.
  induction s as [|c s IH]; [done|]. rewrite append_String. simpl. by rewrite IH.
Qed.

Lemma endsWith_append s : endsWith (s +:+ ".md") ".md" = true.
Proof.
  induction s as [|c s IH]; [done|].
  rewrite append_String. cbn [endsWith]. rewrite IH. apply orb_true_r.
Qed.

Lemma replace_md_end_append s : replace_md_end (s +:+ ".md") = s.
Proof.
  induction s as [|c s IH]; [done|].
  rewrite append_String. cbn [replace_md_end].
  destruct (String.eqb (String c (s +:+ ".md")) ".md") eqn:E.
  - apply String.eqb_eq in E. apply (f_equal String.length) in E.
    simpl in E. rewrite length_append in E. simpl in E. lia.
  - by rewrite IH.
Qed.

Lemma slugs_of_elem_iff names slug :
  slug ∈ slugs_of names ↔ (slug +:+ ".md") ∈ names.
Proof.
  unfold slugs_of. rewrite list_elem_of_fmap. split.
  - intros (f & -> & Hf%list_elem_of_In%filter_In).
    destruct Hf as [Hin Hmd]. rewrite (endsWith_replace_md_end f Hmd).
    by apply list_elem_of_In.
  - intros Hin. exists (slug +:+ ".md").
    split; [by rewrite replace_md_end_append|].
    apply list_elem_of_In, filter_In. split; [by apply list_elem_of_In|].
    apply endsWith_append.
Qed.

Section MoreSlugs.
Context (rt : Runtime).

Lemma check_duplicates_Return_NoDup seen slugs out :
  check_duplicates seen slugs = (Return tt, out) → NoDup slugs.
Proof.
  intros H. destruct (decide (NoDup slugs)) as [|Hdup]; [done|].
  destruct (check_duplicates_throw seen slugs) as (s & _ & Hthrow).
  { by intros [? _]. }
  rewrite Hthrow in H. discriminate.
Qed.

(** The slugs [getAllSlugs] returns are pairwise different. *)
Lemma getAllSlugs_Return_NoDup slugs out :
  getAllSlugs rt = (Return slugs, out) → NoDup slugs.
Proof.
  unfold getAllSlugs. destruct (existsSync rt (blogsDirectory rt)); simpl.
  - destruct (readdirSync rt (blogsDirectory rt)) as [names|e]; simpl;
      [|discriminate].
    destruct (check_duplicates ∅ (slugs_of names)) as [[[]|e] o] eqn:Hc;
      simpl; [|discriminate].
    intros [= <- _]. by eapply check_duplicates_Return_NoDup.
  - intros [= <- _]. constructor.
Qed.

(** The check stops at the first slug that is already in [seen] or among
    the slugs before it. *)
Lemma check_duplicates_first seen before slug rest :
  NoDup before → (∀ s, s ∈ before → s ∉ seen) →
  slug ∈ before ∨ slug ∈ seen →
  check_duplicates seen (before ++ slug :: rest)
  = throw ("Duplicate slug detected: " +:+ slug).
Proof.
  revert seen. induction before as [|b before IH]; intros seen Hnd Hseen Hin.
  - simpl. destruct Hin as [Hin|Hin]; [by apply elem_of_nil in Hin|].
    by destruct (decide (slug ∈ seen)).
  - apply NoDup_cons in Hnd as [Hb Hnd]. simpl.
    destruct (decide (b ∈ seen)) as [Hbs|_].
    { exfalso. apply (Hseen b); [left|done]. }
    apply IH; [done| |].
    + intros s Hs. rewrite elem_of_union, elem_of_singleton.
      intros [->|Hss]; [done|]. apply (Hseen s); [by right|done].
    + rewrite elem_of_union, elem_of_singleton.
      destruct Hin as [Hin|Hin]; [|by right; right].
      apply elem_of_cons in Hin as [->|Hin]; [right; by left|by left].
Qed.

End MoreSlugs.

(** X1.  When the directory is listed and [getAllSlugs] returns, its
    result is the names that end in [.md], in the order of the listing and
    without the [.md]; the slugs are pairwise different; [slug] is one of
    them exactly when the listing has the entry [slug.md]; nothing is
    logged. *)
Theorem getAllSlugs_entries rt names slugs :
  existsSync rt (blogsDirectory rt) = true →
  readdirSync rt (blogsDirectory rt) = Return names →
  fst (getAllSlugs rt) = Return slugs →
  slugs = slugs_of names ∧
  NoDup slugs ∧
  (∀ slug, slug ∈ slugs ↔ (slug +:+ ".md") ∈ names) ∧
  snd (getAllSlugs rt) = [].
Proof.
  intros Hdir Hls [out H]%fst_Return.
  pose proof (getAllSlugs_Return_NoDup rt slugs out H) as Hnd.
  rewrite (getAllSlugs_listing rt names Hdir Hls) in H.
  apply bind_Return_inv in H as ([] & o1 & o2 & Hc & [= <- <-] & ->).
  split; [done|]. split; [done|]. split; [apply slugs_of_elem_iff|].
  rewrite (getAllSlugs_NoDup rt names Hdir Hls Hnd). done.
Qed.

Lemma getAllSlugs_entries_witness :
  ["older"; "newer"; "draft"]
    = slugs_of ["older.md"; "notes.txt"; "newer.md"; "draft.md"] ∧
  NoDup ["older"; "newer"; "draft"] ∧
  (∀ slug, slug ∈ ["older"; "newer"; "draft"]
           ↔ (slug +:+ ".md")
               ∈ ["older.md"; "notes.txt"; "newer.md"; "draft.md"]) ∧
  snd (getAllSlugs store_posts) = [].
Proof.
  apply (getAllSlugs_entries store_posts
           ["older.md"; "notes.txt"; "newer.md"; "draft.md"]
           ["older"; "newer"; "draft"]);
    evaluate.
Defined.

(** X2.  When the [blogs] path exists and listing it throws (it is not a
    directory, or may not be read), [getAllSlugs], [getAllPosts] and
    [getAllPostsMeta] throw that error and log nothing. *)
Theorem readdir_error_propagates rt e :
  existsSync rt (blogsDirectory rt) = true →
  readdirSync rt (blogsDirectory rt) = Throw e →
  getAllSlugs rt = (Throw e, []) ∧
  getAllPosts rt = (Throw e, []) ∧
  getAllPostsMeta rt = (Throw e, []).
Proof.
  intros Hdir Hls.
  assert (getAllSlugs rt = (Throw e, [])) as HS.
  { unfold getAllSlugs. by rewrite Hdir, Hls. }
  split; [done|]. by apply getAllSlugs_Throw.
Qed.

Lemma readdir_error_propagates_witness :
  getAllSlugs store_not_a_directory
    = (Throw "ENOTDIR: not a directory, scandir '/app/blogs'", []) ∧
  getAllPosts store_not_a_directory
    = (Throw "ENOTDIR: not a directory, scandir '/app/blogs'", []) ∧
  getAllPostsMeta store_not_a_directory
    = (Throw "ENOTDIR: not a directory, scandir '/app/blogs'", []).
Proof.
  apply (readdir_error_propagates store_not_a_directory); evaluate.
Defined.

(** X3.  The duplicate error names the first slug of the listing that
    repeats an earlier one: when the slugs before [slug] are pairwise
    different and [slug] is one of them, the message is
    [Duplicate slug detected: slug]. *)
Theorem duplicate_error_names_first_repeat rt names before slug rest :
  existsSync rt (blogsDirectory rt) = true →
  readdirSync rt (blogsDirectory rt) = Return names →
  slugs_of names = before ++ slug :: rest →
  NoDup before → slug ∈ before →
  getAllSlugs rt = (Throw ("Duplicate slug detected: " +:+ slug), []).
Proof.
  intros Hdir Hls Hsplit Hnd Hin.
  rewrite (getAllSlugs_listing rt names Hdir Hls), Hsplit.
  rewrite check_duplicates_first; [done|done| |by left].
  intros s _. apply not_elem_of_empty.
Qed.

Lemma duplicate_error_names_first_repeat_witness :
  getAllSlugs (Demo.runtime (Some
    [("a.md", ""); ("b.md", ""); ("b.md", ""); ("a.md", "")]))
  = (Throw ("Duplicate slug detected: " +:+ "b"), []).
Proof.
  apply (duplicate_error_names_first_repeat _
           ["a.md"; "b.md"; "b.md"; "a.md"] ["a"; "b"] "b" ["a"]);
    evaluate.
Defined.

(** ** What the validation accepts, and what a load leaves behind *)

Section MoreLoading.
Context (rt : Runtime).

Lemma frontmatter_errors_nil_iff data :
  frontmatter_errors rt data = [] ↔
  (∃ t, get data "title" = JString t ∧ t ≠ "") ∧
  ToBoolean (get data "date") = true ∧
  ∃ d, new_Date rt (get data "date") = Some d.
Proof.
  unfold frontmatter_errors. split.
  - intros [H1 H2]%app_eq_nil. split; [|split].
    + destruct (get data "title") as [| |b|n|t|d|items|fields];
        simpl in H1; rewrite ?orb_true_r in H1; try discriminate.
      destruct (String.eqb t "") eqn:E; [discriminate|].
      exists t. split; [done|]. intros ->. discriminate.
    + by destruct (ToBoolean (get data "date")).
    + destruct (ToBoolean (get data "date")); [|discriminate].
      destruct (new_Date rt (get data "date")); [eauto|discriminate].
  - intros [(t & -> & Ht) [-> [d ->]]]. simpl.
    destruct (String.eqb t "") eqn:E; [|done].
    by apply String.eqb_eq in E.
Qed.

Lemma getPostBySlug_output slug text data body :
  existsSync rt (fullPath rt slug) = true →
  readFileSync rt (fullPath rt slug) = Return text →
  matter rt text = Return (data, body) →
  snd (getPostBySlug rt slug)
  = map (warning_line slug) (frontmatter_warnings data)
    ++ match frontmatter_errors rt data with
       | [] => unified_console rt body
       | _ :: _ => []
       end.
Proof.
  intros Hex Hread Hm.
  destruct (decide (frontmatter_errors rt data = [])) as [He|He].
  - rewrite (getPostBySlug_parsed rt slug text data body Hex Hread Hm).
    rewrite (bind_Return _ _ _ _ (validateFrontmatter_ok rt data slug He)).
    rewrite He. unfold markdownToHtml.
    destruct (unified_process rt body); simpl; by rewrite ?app_nil_r.
  - rewrite (getPostBySlug_invalid rt slug text data body Hex Hread Hm He).
    destruct (frontmatter_errors rt data); [done|]. simpl.
    by rewrite app_nil_r.
Qed.

Lemma getPostBySlug_exists_not_null slug :
  existsSync rt (fullPath rt slug) = true →
  fst (getPostBySlug rt slug) ≠ Return None.
Proof.
  intros Hex. unfold getPostBySlug. rewrite Hex. simpl negb. cbv iota.
  destruct (readFileSync rt (fullPath rt slug)) as [text|e]; [|done].
  simpl. destruct (matter rt text) as [[data body]|e]; [|done].
  simpl. destruct (validateFrontmatter rt data slug) as [[[]|e] o]; [|done].
  simpl. unfold markdownToHtml. by destruct (unified_process rt body).
Qed.

End MoreLoading.

(** C6 (as amended).  [getPostBySlug] looks the post up by the path
    [path.join(blogsDirectory, slug + ".md")]: when that path does not
    exist it returns [null], throws nothing and logs nothing; when the path
    exists it never returns [null], so [null] tells a missing path from a
    failed load.  For a slug whose path can exist only as an entry of the
    listing of the content directory, no entry [slug.md] in the listing
    gives [null]. *)
Theorem unknown_slug_is_null rt slug :
  (existsSync rt (fullPath rt slug) = false →
   getPostBySlug rt slug = (Return None, [])) ∧
  (existsSync rt (fullPath rt slug) = true →
   fst (getPostBySlug rt slug) ≠ Return None) ∧
  (∀ names,
     readdirSync rt (blogsDirectory rt) = Return names →
     (existsSync rt (fullPath rt slug) = true → (slug +:+ ".md") ∈ names) →
     (slug +:+ ".md") ∉ names →
     getPostBySlug rt slug = (Return None, [])).
Proof.
  assert (existsSync rt (fullPath rt slug) = false →
          getPostBySlug rt slug = (Return None, [])) as Hnull.
  { intros H. unfold getPostBySlug. by rewrite H. }
  split; [done|]. split; [apply getPostBySlug_exists_not_null|].
  intros names _ Hentry Hnot. apply Hnull.
  destruct (existsSync rt (fullPath rt slug)); [|done].
  exfalso. by apply Hnot, Hentry.
Qed.

Lemma unknown_slug_is_null_witness :
  getPostBySlug store_posts "nope" = (Return None, []) ∧
  fst (getPostBySlug store_posts "draft") ≠ Return None ∧
  getPostBySlug store_traversal "absent" = (Return None, []).
Proof.
  split; [|split].
  - apply (proj1 (unknown_slug_is_null store_posts "nope")). evaluate.
  - apply (proj1 (proj2 (unknown_slug_is_null store_posts "draft"))).
    evaluate.
  - apply (proj2 (proj2 (unknown_slug_is_null store_traversal "absent"))
             ["in.md"; "folder.md"]);
      evaluate.
Defined.

(** C6 (as stated) fails: the listing of the content directory has no
    entry for the slug [../outside], yet [getPostBySlug] returns the post
    of the file [outside.md] next to the directory; and for [folder.md],
    an entry that is a directory and not a markdown file, it throws. *)
Lemma lookup_is_by_path_not_by_listing :
  readdirSync store_traversal (blogsDirectory store_traversal)
    = Return ["in.md"; "folder.md"] ∧
  (("../outside" +:+ ".md") ∉ ["in.md"; "folder.md"]) ∧
  fullPath store_traversal "../outside" = "/app/outside.md" ∧
  fst (getPostBySlug store_traversal "../outside")
    = Return (Some (make_post "../outside" data_outside "secret"
                      "<p>secret</p>")) ∧
  fst (getPostBySlug store_traversal "folder")
    = Throw "EISDIR: illegal operation on a directory, read".
Proof. repeat split; evaluate. Qed.

(** X4.  The validation returns exactly when the title is a string that
    is not empty and the date is truthy and gives a valid [Date]; nothing
    else of the frontmatter is looked at. *)
Theorem validateFrontmatter_accepts rt data slug :
  fst (validateFrontmatter rt data slug) = Return tt ↔
  (∃ t, get data "title" = JString t ∧ t ≠ "") ∧
  ToBoolean (get data "date") = true ∧
  ∃ d, new_Date rt (get data "date") = Some d.
Proof.
  rewrite <- frontmatter_errors_nil_iff.
  destruct (decide (frontmatter_errors rt data = [])) as [He|He].
  - by rewrite (validateFrontmatter_ok rt data slug He).
  - rewrite (validateFrontmatter_Throw rt data slug He). simpl.
    split; [discriminate|done].
Qed.

(** X5.  A post that [getPostBySlug] returns carries the slug it was asked
    for, a title that is a string and not empty, a date that gives a valid
    [Date], and as [contentHtml] the rendering of its [content]; its file
    exists. *)
Theorem getPostBySlug_post rt slug p :
  fst (getPostBySlug rt slug) = Return (Some p) →
  BlogPost.slug p = slug ∧
  (∃ t, BlogPost.title p = JString t ∧ t ≠ "") ∧
  ToBoolean (BlogPost.date p) = true ∧
  (∃ d, new_Date rt (BlogPost.date p) = Some d) ∧
  unified_process rt (BlogPost.content p) = Return (BlogPost.contentHtml p) ∧
  existsSync rt (fullPath rt slug) = true.
Proof.
  intros [out H]%fst_Return.
  apply getPostBySlug_Some_inv in H
    as (text & data & body & html & Hex & _ & _ & He & Hhtml & ->).
  apply frontmatter_errors_nil_iff in He as (Ht & Hb & Hd).
  by repeat split.
Qed.

Lemma getPostBySlug_post_witness :
  BlogPost.slug post_draft = "draft" ∧
  (∃ t, BlogPost.title post_draft = JString t ∧ t ≠ "") ∧
  ToBoolean (BlogPost.date post_draft) = true ∧
  (∃ d, new_Date store_posts (BlogPost.date post_draft) = Some d) ∧
  unified_process store_posts (BlogPost.content post_draft)
    = Return (BlogPost.contentHtml post_draft) ∧
  existsSync store_posts (fullPath store_posts "draft") = true.
Proof. apply (getPostBySlug_post store_posts "draft" post_draft). evaluate. Defined.

(** X6.  The validation collects its errors before it throws: for a file
    that parses and whose title is missing, empty or not a string, the
    message has the title line followed by the date line when the date is
    missing or falsy, and by the invalid-date line, with the date as the
    template prints it, when the date is truthy and gives no valid
    [Date]. *)
Theorem validation_reports_every_error rt slug text data body :
  existsSync rt (fullPath rt slug) = true →
  readFileSync rt (fullPath rt slug) = Return text →
  matter rt text = Return (data, body) →
  ToBoolean (get data "title") = false
    ∨ typeof_is_string (get data "title") = false →
  (ToBoolean (get data "date") = false →
   fst (getPostBySlug rt slug)
   = Throw ("[blogs/" +:+ slug +:+ ".md] Validation failed:" +:+ nl
            +:+ "  - Missing or invalid 'title' field" +:+ nl
            +:+ "  - Missing 'date' field")) ∧
  (ToBoolean (get data "date") = true →
   new_Date rt (get data "date") = None →
   fst (getPostBySlug rt slug)
   = Throw ("[blogs/" +:+ slug +:+ ".md] Validation failed:" +:+ nl
            +:+ "  - Missing or invalid 'title' field" +:+ nl
            +:+ "  - Invalid date format: "
            +:+ ToString rt (get data "date"))).
Proof.
  intros Hex Hread Hm Ht.
  assert (negb (ToBoolean (get data "title"))
          || negb (typeof_is_string (get data "title")) = true) as Hc.
  { destruct Ht as [-> | ->]; [done|apply orb_true_r]. }
  split.
  - intros Hd.
    assert (frontmatter_errors rt data
            = ["Missing or invalid 'title' field"; "Missing 'date' field"])
      as He by (unfold frontmatter_errors; by rewrite Hc, Hd).
    rewrite (getPostBySlug_invalid rt slug text data body Hex Hread Hm);
      [|by rewrite He].
    by rewrite He.
  - intros Hd Hn.
    assert (frontmatter_errors rt data
            = ["Missing or invalid 'title' field";
               "Invalid date format: " +:+ ToString rt (get data "date")])
      as He by (unfold frontmatter_errors; by rewrite Hc, Hd, Hn).
    rewrite (getPostBySlug_invalid rt slug text data body Hex Hread Hm);
      [|by rewrite He].
    by rewrite He.
Qed.

Lemma validation_reports_every_error_witness :
  fst (getPostBySlug store_bare "bare")
  = Throw ("[blogs/bare.md] Validation failed:" +:+ nl
           +:+ "  - Missing or invalid 'title' field" +:+ nl
           +:+ "  - Missing 'date' field") ∧
  fst (getPostBySlug (Demo.runtime (Some [("wrong.md", text_wrong)])) "wrong")
  = Throw ("[blogs/wrong.md] Validation failed:" +:+ nl
           +:+ "  - Missing or invalid 'title' field" +:+ nl
           +:+ "  - Invalid date format: someday").
Proof.
  split.
  - refine (proj1 (validation_reports_every_error store_bare "bare" text_bare
                     data_bare "text" _ _ _ _) _);
      [evaluate..|left; evaluate|evaluate].
  - refine (proj2 (validation_reports_every_error
                     (Demo.runtime (Some [("wrong.md", text_wrong)])) "wrong"
                     text_wrong data_wrong "text" _ _ _ _) _ _);
      [evaluate..|right; evaluate|evaluate|evaluate].
Defined.

(** X7.  What a load of a file that parses writes to the console is the
    description warning, when the description is missing or falsy,
    followed by what the markdown processor writes; the processor runs
    only after a validation that passed, so a load that fails the
    validation logs the description warning and nothing more. *)
Theorem load_logs_description_warning rt slug text data body :
  existsSync rt (fullPath rt slug) = true →
  readFileSync rt (fullPath rt slug) = Return text →
  matter rt text = Return (data, body) →
  snd (getPostBySlug rt slug)
  = (if ToBoolean (get data "description") then []
     else [warning_line slug
             "Missing 'description' field (recommended for SEO)"])
    ++ match frontmatter_errors rt data with
       | [] => unified_console rt body
       | _ :: _ => []
       end.
Proof.
  intros Hex Hread Hm.
  rewrite (getPostBySlug_output rt slug text data body Hex Hread Hm).
  unfold frontmatter_warnings.
  by destruct (ToBoolean (get data "description")).
Qed.

Lemma load_logs_description_warning_witness :
  getPostBySlug store_invalid "untitled"
  = (Throw ("[blogs/untitled.md] Validation failed:" +:+ nl
            +:+ "  - Missing or invalid 'title' field"),
     ["[blogs/untitled.md] Warning: Missing 'description' field (recommended for SEO)"])
  ∧ snd (getPostBySlug store_bare "bare") = []
  ∧ snd (getPostBySlug store_math "math")
    = ["[blogs/math.md] Warning: Missing 'description' field (recommended for SEO)";
       "LaTeX-incompatible input and strict mode is set to 'warn'"].
Proof.
  split; [|split].
  - apply injective_projections; [evaluate|].
    apply (load_logs_description_warning store_invalid "untitled"
             text_untitled data_untitled "body");
      evaluate.
  - apply (load_logs_description_warning store_bare "bare" text_bare
             data_bare "text");
      evaluate.
  - etransitivity;
      [apply (load_logs_description_warning store_math "math"
                (Demo.post_file "Math" "2026-01-11" "" "$x$")
                (<["date" := JString "2026-01-11"]>
                   (<["title" := JString "Math"]> ∅)) "$x$")
      |];
      evaluate.
Defined.

(** X8.  [getPostBySlug] catches nothing: when the file exists, an error
    of [readFileSync] or of the frontmatter parser is thrown on with
    nothing logged, and an error of the markdown processor is thrown on
    after a validation that passed. *)
Theorem load_errors_propagate rt slug e :
  existsSync rt (fullPath rt slug) = true →
  (readFileSync rt (fullPath rt slug) = Throw e →
   getPostBySlug rt slug = (Throw e, [])) ∧
  (∀ text,
     readFileSync rt (fullPath rt slug) = Return text →
     matter rt text = Throw e →
     getPostBySlug rt slug = (Throw e, [])) ∧
  (∀ text data body,
     readFileSync rt (fullPath rt slug) = Return text →
     matter rt text = Return (data, body) →
     frontmatter_errors rt data = [] →
     unified_process rt body = Throw e →
     fst (getPostBySlug rt slug) = Throw e).
Proof.
  intros Hex. split; [|split].
  - intros Hread. unfold getPostBySlug. by rewrite Hex, Hread.
  - intros text Hread Hm. unfold getPostBySlug. rewrite Hex, Hread. simpl.
    by rewrite Hm.
  - intros text data body Hread Hm He Hhtml.
    rewrite (getPostBySlug_parsed rt slug text data body Hex Hread Hm).
    rewrite (bind_Return _ _ _ _ (validateFrontmatter_ok rt data slug He)).
    unfold markdownToHtml. by rewrite Hhtml.
Qed.

Lemma load_errors_propagate_witness :
  getPostBySlug store_broken "locked"
    = (Throw "EACCES: permission denied, open '/app/blogs/locked.md'", []) ∧
  getPostBySlug store_broken "open"
    = (Throw "frontmatter is not closed", []) ∧
  fst (getPostBySlug store_broken "mystery")
    = Throw "Unknown language: `mystery` is not registered".
Proof.
  split; [|split].
  - refine (proj1 (load_errors_propagate store_broken "locked" _ _) _);
      evaluate.
  - refine (proj1 (proj2 (load_errors_propagate store_broken "open" _ _))
              ("---" +:+ nl +:+ "title: x") _ _);
      evaluate.
  - refine (proj2 (proj2 (load_errors_propagate store_broken "mystery" _ _))
              (Demo.post_file "Mystery" "2026-01-09" "" "mystery")
              data_mystery "mystery" _ _ _ _);
      evaluate.
Defined.

(** ** The listing as a whole *)

Lemma Sorted_Forall_impl {A} (R R' : A → A → Prop) (P : A → Prop) l :
  (∀ x y, P x → P y → R x y → R' x y) →
  Forall P l → Sorted R l → Sorted R' l.
Proof.
  intros HR HP Hl. induction Hl as [|x l Hl IH Hx]; [constructor|].
  apply Forall_cons in HP as [Px HP]. constructor; [by apply IH|].
  destruct Hx as [|y l' Hxy]; constructor.
  apply Forall_cons in HP as [Py _]. by apply HR.
Qed.

Section MoreListing.
Context (rt : Runtime).

Lemma getPostBySlug_Some_slug slug p out :
  getPostBySlug rt slug = (Return (Some p), out) → BlogPost.slug p = slug.
Proof.
  intros H. apply getPostBySlug_Some_inv in H
    as (text & data & body & html & _ & _ & _ & _ & _ & ->).
  done.
Qed.

(** The loop adds posts in the order of the slugs, at most one a slug. *)
Lemma collect_posts_sublist slugs posts l out :
  collect_posts rt slugs posts = (Return l, out) →
  ∃ loaded, l = posts ++ loaded ∧
            (BlogPost.slug <$> loaded) `sublist_of` slugs.
Proof.
  revert posts out. induction slugs as [|s slugs IH]; intros posts out H.
  - injection H as <- _. exists []. by rewrite app_nil_r.
  - simpl in H. apply bind_Return_inv in H as (r & o1 & o2 & Hs & Hrest & _).
    apply IH in Hrest as (loaded & -> & Hsub).
    destruct r as [q|]; simpl; [destruct (BlogPost.published q)|].
    + exists (q :: loaded). split; [by rewrite <- app_assoc|].
      rewrite fmap_cons, (getPostBySlug_Some_slug s q o1 Hs).
      by apply sublist_skip.
    + exists loaded. split; [done|]. by apply sublist_cons.
    + exists loaded. split; [done|]. by apply sublist_cons.
Qed.

Lemma collect_posts_Return_iff slugs posts :
  (∃ l, fst (collect_posts rt slugs posts) = Return l) ↔
  Forall (fun s => ∃ r, fst (getPostBySlug rt s) = Return r) slugs.
Proof.
  revert posts. induction slugs as [|s slugs IH]; intros posts.
  - split; [constructor|]. intros _. by exists posts.
  - rewrite Forall_cons. simpl.
    destruct (getPostBySlug rt s) as [[r|e] o1] eqn:Hs.
    + rewrite (bind_Return _ _ r o1 eq_refl). simpl.
      rewrite (IH (push_published posts r)). split; [|tauto].
      intros H. split; [eauto|done].
    + rewrite (bind_Throw _ _ e o1 eq_refl). simpl. split.
      * by intros [l Hl].
      * by intros [[r Hr] _].
Qed.

Lemma at_least_as_recent_trans a b c :
  at_least_as_recent rt a b → at_least_as_recent rt b c →
  at_least_as_recent rt a c.
Proof.
  intros (ta & tb & Ha & Hb & Hab) (tb' & tc & Hb' & Hc & Hbc).
  rewrite Hb in Hb'. injection Hb' as <-.
  exists ta, tc. repeat split; [done..|lia].
Qed.

(** Every post of the result is at least as recent as every post after
    it. *)
Lemma getAllPosts_StronglySorted posts out :
  getAllPosts rt = (Return posts, out) →
  StronglySorted
    (fun a b => at_least_as_recent rt (BlogPost.date a) (BlogPost.date b))
    posts.
Proof.
  intros H. apply Sorted_StronglySorted.
  { intros a b c. apply at_least_as_recent_trans. }
  assert (Forall (fun p => ∃ t, new_Date rt (BlogPost.date p) = Some t) posts)
    as Hdate.
  { apply Forall_forall. intros p Hp.
    apply (getAllPosts_elem rt posts out p H) in Hp
      as (_ & slugs & o1 & slug & o & _ & _ & Hload).
    apply getPostBySlug_Some_inv in Hload
      as (text & data & body & html & _ & _ & _ & He & _ & ->).
    by apply frontmatter_errors_date. }
  apply getAllPosts_Return_inv in H as (slugs & o1 & l & o2 & _ & _ & ->).
  eapply Sorted_Forall_impl; [|exact Hdate|].
  2:{ apply Array_sort_Sorted, newest_first_consistent. }
  intros a b [ta Ha] [tb Hb] Hab.
  unfold in_order, SortCompare, newest_first in Hab.
  rewrite Ha, Hb in Hab. simpl in Hab.
  exists ta, tb. repeat split; [done..|lia].
Qed.

End MoreListing.

(** X9.  Once the slugs are enumerated, [getAllPosts] returns exactly when
    the load of every slug returns, with a post or with [null]. *)
Theorem listing_returns_iff_all_load rt slugs :
  fst (getAllSlugs rt) = Return slugs →
  (∃ posts, fst (getAllPosts rt) = Return posts) ↔
  Forall (fun s => ∃ r, fst (getPostBySlug rt s) = Return r) slugs.
Proof.
  intros [o1 Hslugs]%fst_Return.
  rewrite <- (collect_posts_Return_iff rt slugs []).
  unfold getAllPosts. rewrite (bind_Return _ _ slugs o1 Hslugs). simpl.
  destruct (collect_posts rt slugs []) as [[l|e] o2]; simpl.
  - split; eauto.
  - split; by intros [? ?].
Qed.

Lemma listing_returns_iff_all_load_witness :
  (∃ posts, fst (getAllPosts store_posts) = Return posts) ↔
  Forall (fun s => ∃ r, fst (getPostBySlug store_posts s) = Return r)
         ["older"; "newer"; "draft"].
Proof.
  apply (listing_returns_iff_all_load store_posts ["older"; "newer"; "draft"]).
  evaluate.
Defined.

(** X10.  The posts [getAllPosts] returns have pairwise different slugs,
    each of them a slug of the enumeration, so there is at most one post
    a markdown file. *)
Theorem listed_posts_have_distinct_slugs rt slugs posts :
  fst (getAllSlugs rt) = Return slugs →
  fst (getAllPosts rt) = Return posts →
  NoDup (BlogPost.slug <$> posts) ∧
  (∀ p, p ∈ posts → BlogPost.slug p ∈ slugs) ∧
  (length posts ≤ length slugs)%nat.
Proof.
  intros [o1 Hslugs]%fst_Return [out H]%fst_Return.
  apply getAllPosts_Return_inv in H as (slugs' & o1' & l & o2 & Hs & Hl & ->).
  rewrite Hslugs in Hs. injection Hs as <- <-.
  apply collect_posts_sublist in Hl as (loaded & -> & Hsub). simpl.
  pose proof (Array_sort_Permutation (newest_first rt) loaded) as Hperm.
  split; [|split].
  - rewrite Hperm. eapply sublist_NoDup; [|done].
    by eapply getAllSlugs_Return_NoDup.
  - intros p Hp. rewrite Hperm in Hp.
    eapply elem_of_sublist; [|done]. by apply list_elem_of_fmap_2.
  - rewrite Hperm. apply sublist_length in Hsub.
    by rewrite length_fmap in Hsub.
Qed.

Lemma listed_posts_have_distinct_slugs_witness :
  NoDup (BlogPost.slug <$> [post_newer; post_older]) ∧
  (∀ p, p ∈ [post_newer; post_older]
        → BlogPost.slug p ∈ ["older"; "newer"; "draft"]) ∧
  (length [post_newer; post_older] ≤ length ["older"; "newer"; "draft"])%nat.
Proof.
  apply (listed_posts_have_distinct_slugs store_posts
           ["older"; "newer"; "draft"] [post_newer; post_older]);
    evaluate.
Defined.

(** X11.  In the result of [getAllPosts] every post is at least as recent
    as every post after it, adjacent or not; the first post is the most
    recent of all. *)
Theorem earlier_posts_are_more_recent rt posts i j a b :
  fst (getAllPosts rt) = Return posts →
  (i < j)%nat → posts !! i = Some a → posts !! j = Some b →
  at_least_as_recent rt (BlogPost.date a) (BlogPost.date b).
Proof.
  intros [out H]%fst_Return Hij Ha Hb.
  pose proof (getAllPosts_StronglySorted rt posts out H) as Hsorted.
  rewrite <- (take_drop j posts) in Hsorted.
  apply (StronglySorted_app_1_elem_of _ _ _ a b Hsorted).
  - apply elem_of_take. eauto.
  - apply list_elem_of_lookup. exists 0%nat.
    by rewrite lookup_drop, Nat.add_0_r.
Qed.

Lemma earlier_posts_are_more_recent_witness :
  at_least_as_recent store_seven (JString "2026-01-07") (JString "2026-01-02").
Proof.
  apply (earlier_posts_are_more_recent store_seven
           (map loaded_numbered ["7"; "6"; "5"; "4"; "3"; "2"; "1"])
           0%nat 5%nat (loaded_numbered "7") (loaded_numbered "2"));
    evaluate.
Defined.

(** ** The pages *)

Lemma replace_slashes_length s :
  String.length (replace_slashes s) = String.length s.
Proof. induction s as [|c s IH]; simpl; [done|]. by rewrite IH. Qed.

Lemma replace_slashes_get s i :
  String.get i (replace_slashes s)
  = (fun c => if Ascii.eqb c "/" then "."%char else c) <$> String.get i s.
Proof.
  revert i. induction s as [|c s IH]; intros i; [done|].
  destruct i as [|i]; simpl; [done|]. apply IH.
Qed.

Lemma replace_slashes_no_slash s : includes (replace_slashes s) "/" = false.
Proof.
  induction s as [|c s IH]; [done|].
  cbn [replace_slashes includes startsWith]. rewrite IH, andb_true_r, orb_false_r.
  destruct (Ascii.eqb c "/") eqn:E; [done|].
  apply Ascii.eqb_neq. apply Ascii.eqb_neq in E. congruence.
Qed.

Section MorePages.
Context (rt : Runtime) (prt : PageRuntime).

Lemma generateMetadata_Some slug p t out :
  getPostBySlug rt slug = (Return (Some p), out) →
  BlogPost.title p = JString t →
  generateMetadata rt prt {| PageParams.slug := slug |}
  = (Return {| Metadata.title := toUpperCase prt t +:+ " | LOG";
               Metadata.description := BlogPost.description p |}, out).
Proof.
  intros H Ht. unfold generateMetadata. simpl PageParams.slug.
  rewrite (bind_Return _ _ _ _ H). simpl. rewrite Ht. simpl.
  by rewrite app_nil_r.
Qed.

End MorePages.

(** X12.  When every entry of the listing exists, each parameter object
    [generateStaticParams] returns leads [getPostBySlug] to a file: the
    slug with [.md] put back is the name of the entry, so the load returns
    a post or throws, and never returns [null].  The parameters are
    pairwise different and follow the listing. *)
Theorem static_params_resolve rt names params :
  existsSync rt (blogsDirectory rt) = true →
  readdirSync rt (blogsDirectory rt) = Return names →
  (∀ name, name ∈ names →
           existsSync rt (path_join rt (blogsDirectory rt) name) = true) →
  fst (generateStaticParams rt) = Return params →
  PageParams.slug <$> params = slugs_of names ∧
  NoDup params ∧
  ∀ param, param ∈ params →
    fst (getPostBySlug rt (PageParams.slug param)) ≠ Return None.
Proof.
  intros Hdir Hls Hexist [out H]%fst_Return. unfold generateStaticParams in H.
  apply bind_Return_inv in H as (slugs & o1 & o2 & Hslugs & [= <- _] & _).
  pose proof (getAllSlugs_Return_NoDup rt slugs o1 Hslugs) as Hnd.
  rewrite (getAllSlugs_listing rt names Hdir Hls) in Hslugs.
  apply bind_Return_inv in Hslugs as ([] & o3 & o4 & _ & [= <- _] & _).
  split; [|split].
  - rewrite <- list_fmap_compose. apply list_fmap_id.
  - apply NoDup_fmap_2; [|done]. by intros x y [= ->].
  - intros param (slug & -> & Hin)%list_elem_of_fmap. simpl.
    apply getPostBySlug_exists_not_null. unfold fullPath.
    by apply Hexist, slugs_of_elem_iff.
Qed.

Lemma static_params_resolve_witness :
  PageParams.slug <$> [ {| PageParams.slug := "older" |};
                        {| PageParams.slug := "newer" |};
                        {| PageParams.slug := "draft" |} ]
    = slugs_of ["older.md"; "notes.txt"; "newer.md"; "draft.md"] ∧
  NoDup [ {| PageParams.slug := "older" |};
          {| PageParams.slug := "newer" |};
          {| PageParams.slug := "draft" |} ] ∧
  ∀ param, param ∈ [ {| PageParams.slug := "older" |};
                     {| PageParams.slug := "newer" |};
                     {| PageParams.slug := "draft" |} ] →
    fst (getPostBySlug store_posts (PageParams.slug param)) ≠ Return None.
Proof.
  apply (static_params_resolve store_posts
           ["older.md"; "notes.txt"; "newer.md"; "draft.md"]);
    try evaluate.
  intros name Hname.
  repeat (apply elem_of_cons in Hname as [->|Hname]; [evaluate|]).
  by apply elem_of_nil in Hname.
Defined.

(** X13.  For a slug without a file [generateMetadata] returns the title
    [ERR_NOT_FOUND] and no description; for a slug whose post loads, the
    title of the post is a string and the result is that title in upper
    case followed by [ | LOG], with the description of the post; the
    console output is that of the load. *)
Theorem generateMetadata_result rt prt slug :
  (existsSync rt (fullPath rt slug) = false →
   generateMetadata rt prt {| PageParams.slug := slug |}
   = (Return {| Metadata.title := "ERR_NOT_FOUND";
                Metadata.description := JUndefined |}, [])) ∧
  (∀ p, fst (getPostBySlug rt slug) = Return (Some p) →
   ∃ t, BlogPost.title p = JString t ∧
        generateMetadata rt prt {| PageParams.slug := slug |}
        = (Return {| Metadata.title := toUpperCase prt t +:+ " | LOG";
                     Metadata.description := BlogPost.description p |},
           snd (getPostBySlug rt slug))).
Proof.
  split.
  - intros Hex. unfold generateMetadata, getPostBySlug. simpl PageParams.slug.
    by rewrite Hex.
  - intros p [out H]%fst_Return.
    pose proof H as Hinv. apply getPostBySlug_Some_inv in Hinv
      as (text & data & body & html & _ & _ & _ & He & _ & ->).
    apply frontmatter_errors_nil_iff in He as ((t & Ht & _) & _).
    exists t. split; [done|].
    rewrite (generateMetadata_Some rt prt slug _ t out H Ht). by rewrite H.
Qed.

Lemma generateMetadata_result_witness :
  generateMetadata store_posts DemoPages.runtime {| PageParams.slug := "nope" |}
  = (Return {| Metadata.title := "ERR_NOT_FOUND";
               Metadata.description := JUndefined |}, []) ∧
  ∃ t, BlogPost.title post_newer = JString t ∧
       generateMetadata store_posts DemoPages.runtime
         {| PageParams.slug := "newer" |}
       = (Return {| Metadata.title := DemoPages.upper t +:+ " | LOG";
                    Metadata.description := BlogPost.description post_newer |},
          snd (getPostBySlug store_posts "newer")).
Proof.
  split.
  - apply (proj1 (generateMetadata_result store_posts DemoPages.runtime "nope")).
    evaluate.
  - apply (proj2 (generateMetadata_result store_posts DemoPages.runtime "newer")
             post_newer).
    evaluate.
Defined.

(** X14.  [generateMetadata] adds no failure of its own: it throws exactly
    when the load of the post throws, with the same error; the call of
    [toUpperCase] on the title never meets a value that is not a string. *)
Theorem generateMetadata_throws_iff_load_throws rt prt slug e :
  fst (generateMetadata rt prt {| PageParams.slug := slug |}) = Throw e ↔
  fst (getPostBySlug rt slug) = Throw e.
Proof.
  destruct (getPostBySlug rt slug) as [[[p|]|e'] out] eqn:H.
  - pose proof H as Hinv. apply getPostBySlug_Some_inv in Hinv
      as (text & data & body & html & _ & _ & _ & He & _ & ->).
    apply frontmatter_errors_nil_iff in He as ((t & Ht & _) & _).
    rewrite (generateMetadata_Some rt prt slug _ t out H Ht). simpl.
    split; discriminate.
  - unfold generateMetadata. simpl PageParams.slug. rewrite H. simpl.
    split; discriminate.
  - unfold generateMetadata. simpl PageParams.slug. rewrite H. simpl.
    split; by intros [= ->].
Qed.

(** X15.  [formatDate] replaces every slash of the localized date by a
    dot and changes nothing else: the result has the length of the
    localized date, the same characters at the places that hold no slash,
    and no slash. *)
Theorem formatDate_replaces_slashes rt prt dateString :
  String.length (formatDate rt prt dateString)
  = String.length (toLocaleDateString prt (new_Date rt dateString)) ∧
  (∀ i, String.get i (formatDate rt prt dateString)
        = (fun c => if Ascii.eqb c "/" then "."%char else c)
            <$> String.get i (toLocaleDateString prt (new_Date rt dateString))) ∧
  includes (formatDate rt prt dateString) "/" = false.
Proof.
  unfold formatDate. split; [apply replace_slashes_length|].
  split; [intros i; apply replace_slashes_get|apply replace_slashes_no_slash].
Qed.

(** X16.  The home page shows the first five entries of the listing, or
    all of them when there are at most five; each entry shown is at least
    as recent as each entry left out. *)
Theorem recentPosts_are_the_newest rt recent :
  fst (recentPosts rt) = Return recent →
  ∃ metas,
    fst (getAllPostsMeta rt) = Return metas ∧
    recent = take 5 metas ∧
    length recent = min 5 (length metas) ∧
    ((length metas ≤ 5)%nat → recent = metas) ∧
    ∀ shown left_out,
      shown ∈ recent → left_out ∈ drop 5 metas →
      at_least_as_recent rt (BlogPostMeta.date shown)
        (BlogPostMeta.date left_out).
Proof.
  intros [out H]%fst_Return. unfold recentPosts in H.
  apply bind_Return_inv in H as (metas & o1 & o2 & Hmetas & [= <- _] & _).
  exists metas. split; [by rewrite Hmetas|]. split; [done|].
  split; [apply length_take|]. split; [apply take_ge|].
  unfold getAllPostsMeta in Hmetas.
  apply bind_Return_inv in Hmetas as (posts & o3 & o4 & Hposts & [= <- _] & _).
  pose proof (getAllPosts_StronglySorted rt posts o3 Hposts) as Hsorted.
  rewrite <- (take_drop 5 posts) in Hsorted.
  intros shown left_out Hshown Hleft.
  rewrite <- fmap_take in Hshown. rewrite <- fmap_drop in Hleft.
  apply list_elem_of_fmap in Hshown as (p & -> & Hp).
  apply list_elem_of_fmap in Hleft as (q & -> & Hq).
  apply (StronglySorted_app_1_elem_of _ _ _ p q Hsorted Hp Hq).
Qed.

Lemma recentPosts_are_the_newest_witness :
  ∃ metas,
    fst (getAllPostsMeta store_seven) = Return metas ∧
    map meta_numbered ["7"; "6"; "5"; "4"; "3"] = take 5 metas ∧
    length (map meta_numbered ["7"; "6"; "5"; "4"; "3"])
      = min 5 (length metas) ∧
    ((length metas ≤ 5)%nat
     → map meta_numbered ["7"; "6"; "5"; "4"; "3"] = metas) ∧
    ∀ shown left_out,
      shown ∈ map meta_numbered ["7"; "6"; "5"; "4"; "3"] →
      left_out ∈ drop 5 metas →
      at_least_as_recent store_seven (BlogPostMeta.date shown)
        (BlogPostMeta.date left_out).
Proof.
  apply (recentPosts_are_the_newest store_seven
           (map meta_numbered ["7"; "6"; "5"; "4"; "3"])).
  evaluate.
Defined.

(** X17.  The date of the frontmatter is not required to be a string:
    with a valid title, a [Date] object with a valid time value, the
    boolean [true], and a finite number that is not zero and within the
    range of time values all pass the validation; [true] counts as 1 ms
    and a number as that many milliseconds after 1970-01-01. *)
Theorem non_string_dates_pass rt data slug t :
  get data "title" = JString t → t ≠ "" →
  (∀ d, get data "date" = JDate (Some d) →
        fst (validateFrontmatter rt data slug) = Return tt ∧
        new_Date rt (get data "date") = Some d) ∧
  (get data "date" = JBool true →
   fst (validateFrontmatter rt data slug) = Return tt ∧
   new_Date rt (get data "date") = Some 1) ∧
  (∀ q, get data "date" = JNumber (Finite q) →
        Qeq_bool q 0 = false →
        Qle_bool (Qabs q) (inject_Z max_time) = true →
        fst (validateFrontmatter rt data slug) = Return tt ∧
        new_Date rt (get data "date")
        = Some (Z.quot (Qnum q) (Z.pos (Qden q)))).
Proof.
  intros Ht Hne.
  assert (∀ d, ToBoolean (get data "date") = true →
               new_Date rt (get data "date") = Some d →
               fst (validateFrontmatter rt data slug) = Return tt ∧
               new_Date rt (get data "date") = Some d) as Hok.
  { intros d Hb Hd. split; [|done].
    rewrite (validateFrontmatter_ok rt data slug); [done|].
    apply frontmatter_errors_nil_iff. eauto 6. }
  split; [|split].
  - intros d Hd. apply Hok; by rewrite Hd.
  - intros Hd. apply Hok; by rewrite Hd.
  - intros q Hd Hq Hrange. apply Hok; rewrite Hd; simpl.
    + by rewrite Hq.
    + by rewrite Hrange.
Qed.

Lemma non_string_dates_pass_witness :
  fst (validateFrontmatter store_posts
         (<["date" := JNumber (Finite (2024 # 1))]>
            (<["title" := JString "Year"]> ∅)) "year") = Return tt ∧
  new_Date store_posts
    (get (<["date" := JNumber (Finite (2024 # 1))]>
            (<["title" := JString "Year"]> ∅)) "date") = Some 2024.
Proof.
  refine (proj2 (proj2 (non_string_dates_pass store_posts
            (<["date" := JNumber (Finite (2024 # 1))]>
               (<["title" := JString "Year"]> ∅)) "year" "Year" _ _))
            (2024 # 1)%Q _ _ _);
    evaluate.
Defined.
